(** * Ataturk-ile-ani: the upload / submit page of [src/index.tsx]

    A shallow embedding of the page script: the two event handlers
    (file selection, submission), the helpers [fileToBase64],
    [displayError] and [setLoading], and the part of the browser they
    drive (a small DOM, the object-URL store, the console and the log of
    calls to the generation service).  The asynchronous click handler is
    cut at its two [await]s into three transitions of a step function. *)

From Stdlib Require Import String Ascii NArith List Lia.
From Stdlib Require Import Strings.Byte.
From stdpp Require Import base option list strings gmap.

Local Open Scope string_scope.
Local Open Scope list_scope.

(* ===================================================================== *)
(** ** JavaScript values used by the script *)
(* ===================================================================== *)

Module JS.

(** [String.prototype.split] with a one-character separator: the pieces
    between the occurrences of [sep]; a string without [sep] is returned
    as the only piece, and the empty string gives one empty piece. *)
Fixpoint split (sep : ascii) (s : string) : list string :=
  match s with
  | EmptyString => [EmptyString]
  | String a rest =>
      if Ascii.eqb a sep then EmptyString :: split sep rest
      else match split sep rest with
           | piece :: pieces => String a piece :: pieces
           | [] => [String a EmptyString]
           end
  end.

(** Truthiness of a value of type [string | undefined]: [undefined] and
    the empty string are falsy. *)
Definition truthy (v : option string) : bool :=
  match v with
  | Some (String _ _) => true
  | _ => false
  end.

(** [a || b] where [a : string | undefined] and [b : string]. *)
Definition or_else (a : option string) (b : string) : string :=
  match a with
  | Some (String c r) => String c r
  | _ => b
  end.

(** A template-literal hole [${v}] for [v : string | undefined]. *)
Definition interpolate (v : option string) : string :=
  match v with
  | Some s => s
  | None => "undefined"
  end.

(** A thrown or rejected value, seen through the one property the script
    reads from it: [message].  An [Error] has one; the [ProgressEvent]
    that a [FileReader] hands to [onerror] has none. *)
Record thrown := Thrown { message : option string }.

(** [new Error(msg)] *)
Definition Error (msg : string) : thrown := Thrown (Some msg).

(** How an awaited promise settles. *)
Inductive settled (A : Type) :=
| Resolved (value : A)
| Rejected (reason : thrown).
Arguments Resolved {A} value.
Arguments Rejected {A} reason.

(** Membership of a character in a string. *)
Fixpoint occurs (c : ascii) (s : string) : bool :=
  match s with
  | EmptyString => false
  | String a rest => Ascii.eqb a c || occurs c rest
  end.

End JS.

(* ===================================================================== *)
(** ** Files and the platform's base64 data URLs *)
(* ===================================================================== *)

(** A [File]: its name, declared media type and content. *)
Record File := { name : string; type : string; bytes : list byte }.

Module Base64.

Definition alphabet : list ascii :=
  list_ascii_of_string
    "ABCDEFGHIJKLMNOPQRSTUVWXYZabcdefghijklmnopqrstuvwxyz0123456789+/".

Definition digit (i : N) : ascii := nth (N.to_nat i) alphabet "A"%char.

(** The [k]-th 6-bit group (from the right) of a 24-bit group. *)
Definition sextet (n k : N) : N := N.land (N.shiftr n (6 * k)) 63.

Definition pad : ascii := "="%char.

(** RFC 4648 encoding with padding, as [FileReader.readAsDataURL] emits
    it. *)
Fixpoint encode (bs : list byte) : string :=
  match bs with
  | [] => EmptyString
  | [a] =>
      let n := (Byte.to_N a * 65536)%N in
      String (digit (sextet n 3)) (String (digit (sextet n 2))
        (String pad (String pad EmptyString)))
  | [a; b] =>
      let n := (Byte.to_N a * 65536 + Byte.to_N b * 256)%N in
      String (digit (sextet n 3)) (String (digit (sextet n 2))
        (String (digit (sextet n 1)) (String pad EmptyString)))
  | a :: b :: c :: rest =>
      let n := (Byte.to_N a * 65536 + Byte.to_N b * 256 + Byte.to_N c)%N in
      String (digit (sextet n 3)) (String (digit (sextet n 2))
        (String (digit (sextet n 1)) (String (digit (sextet n 0))
          (encode rest))))
  end.

End Base64.

(** The value of [reader.result] after a successful
    [reader.readAsDataURL(file)]: a base64 data URL whose media type is
    the one the platform attaches to the file. *)
Definition data_url (mediatype : string) (content : list byte) : string :=
  "data:" +:+ mediatype +:+ ";base64," +:+ Base64.encode content.

(** Which of the two [FileReader] callbacks fires. *)
Inductive read_result :=
| ReadLoad (result : string)         (* onload, with reader.result *)
| ReadError (ev : JS.thrown).        (* onerror, with the event *)

(** [fileToBase64]: resolves with [reader.result.split(',')[1]] (an
    [undefined] when the result holds no comma), rejects with the value
    given to [onerror]. *)
Definition fileToBase64 (r : read_result) : JS.settled (option string) :=
  match r with
  | ReadLoad result => JS.Resolved (JS.split "," result !! 1%nat)
  | ReadError ev => JS.Rejected ev
  end.

(* ===================================================================== *)
(** ** The service's response, as far as the script reads it *)
(* ===================================================================== *)

(** Every field the script reads is optional in the client library's
    types. *)
Record Blob := { data : option string; mimeType : option string }.
Record Part := { inlineData : option Blob; text : option string }.
Record Content := { parts : option (list Part) }.
Record Candidate := { content : option Content }.
Record GenerateContentResponse := { candidates : option (list Candidate) }.

(** One call of [ai.models.generateContent]. *)
Record request := {
  model : string;
  contents : list Part;
  responseModalities : list string
}.

(* ===================================================================== *)
(** ** A small DOM *)
(* ===================================================================== *)

(** The one [onload] closure of the script:
    [() => URL.revokeObjectURL(img.src)]. *)
Inductive handler := RevokeOwnSrc.

(** Elements carry a tag, the properties the script sets on them, an
    [onload] handler and their children; text nodes carry their data. *)
Inductive node :=
| Elem (tag : string) (props : list (string * string))
       (onload : option handler) (kids : list node)
| Text (chars : string).

Module DOM.

(** Whether a node is selected by ['img, p']. *)
Definition selected (n : node) : bool :=
  match n with
  | Elem tag _ _ _ => String.eqb tag "img" || String.eqb tag "p"
  | Text _ => false
  end.

(** [querySelectorAll('img, p')] below a node, the node included: the
    selected elements in document order. *)
Fixpoint selected_under (n : node) : list node :=
  match n with
  | Elem tag props h kids =>
      (if selected n then [n] else []) ++ flat_map selected_under kids
  | Text _ => []
  end.

(** [container.querySelectorAll('img, p')] for a container with the
    children [l]. *)
Definition querySelectorAll (l : list node) : list node :=
  flat_map selected_under l.

(** [container.querySelector('img, p')]: the first of them, or null. *)
Definition querySelector (l : list node) : option node :=
  head (querySelectorAll l).

(** The subtree with its first selected proper descendant detached;
    [None] when it has none. *)
Fixpoint remove_first_under (n : node) : option node :=
  match n with
  | Elem tag props h kids =>
      Elem tag props h <$>
        (fix go (l : list node) : option (list node) :=
           match l with
           | [] => None
           | k :: rest =>
               if selected k then Some rest
               else match remove_first_under k with
                    | Some k' => Some (k' :: rest)
                    | None => cons k <$> go rest
                    end
           end) kids
  | Text _ => None
  end.

(** [container.querySelector('img, p')] followed by [.remove()] on the
    element found: the children of the container afterwards, [None]
    when the query returns null. *)
Fixpoint remove_first (l : list node) : option (list node) :=
  match l with
  | [] => None
  | k :: rest =>
      if selected k then Some rest
      else match remove_first_under k with
           | Some k' => Some (k' :: rest)
           | None => cons k <$> remove_first rest
           end
  end.

(** The children an element has after [el.textContent = s]. *)
Definition text_kids (s : string) : list node :=
  match s with
  | EmptyString => []
  | _ => [Text s]
  end.

(** The getter [el.textContent]. *)
Fixpoint textContent (n : node) : string :=
  match n with
  | Elem _ _ _ kids =>
      fold_right (fun k acc => textContent k +:+ acc) EmptyString kids
  | Text s => s
  end.

(** The value of a property the script has set, the empty string
    otherwise. *)
Definition prop (key : string) (n : node) : string :=
  match n with
  | Elem _ props _ _ =>
      match find (fun kv => String.eqb (fst kv) key) props with
      | Some kv => snd kv
      | None => EmptyString
      end
  | Text _ => EmptyString
  end.

Definition tag_of (n : node) : option string :=
  match n with
  | Elem tag _ _ _ => Some tag
  | Text _ => None
  end.

End DOM.

(* ===================================================================== *)
(** ** The page *)
(* ===================================================================== *)

(** Where a suspended click handler waits. *)
Inductive phase :=
| AwaitRead (file : File)     (* await fileToBase64(selectedFile) *)
| AwaitResponse.              (* await ai.models.generateContent(..) *)

(** The module-level variable [selectedFile], the six elements looked up
    at start-up and the browser state the script acts on.  The file input
    and the submit button exist in every page on which the handlers are
    registered ([addEventListener] is called on them unguarded); the four
    other elements may be missing, as the script's guards allow.  The
    loader is followed through its [hidden] flag only, wherever it sits in
    the document. *)
Record page := {
  selectedFile : option File;
  imageUpload_disabled : bool;
  submitBtn_disabled : bool;
  originalImagePreview : option (list node);      (* its children *)
  generatedImageContainer : option (list node);   (* its children *)
  loader : option bool;                           (* its hidden flag *)
  errorMessage : option string;                   (* its textContent *)
  console : list string;                          (* console.error lines *)
  object_urls : gmap string File;                 (* live object URLs *)
  loading : list node;                            (* images being loaded *)
  requests : list request;                        (* calls to the service *)
  pending : list phase                            (* suspended handlers *)
}.

Definition set_selectedFile v s :=
  {| selectedFile := v; imageUpload_disabled := imageUpload_disabled s;
     submitBtn_disabled := submitBtn_disabled s;
     originalImagePreview := originalImagePreview s;
     generatedImageContainer := generatedImageContainer s;
     loader := loader s; errorMessage := errorMessage s;
     console := console s; object_urls := object_urls s;
     loading := loading s; requests := requests s; pending := pending s |}.

Definition set_imageUpload_disabled v s :=
  {| selectedFile := selectedFile s; imageUpload_disabled := v;
     submitBtn_disabled := submitBtn_disabled s;
     originalImagePreview := originalImagePreview s;
     generatedImageContainer := generatedImageContainer s;
     loader := loader s; errorMessage := errorMessage s;
     console := console s; object_urls := object_urls s;
     loading := loading s; requests := requests s; pending := pending s |}.

Definition set_submitBtn_disabled v s :=
  {| selectedFile := selectedFile s;
     imageUpload_disabled := imageUpload_disabled s;
     submitBtn_disabled := v;
     originalImagePreview := originalImagePreview s;
     generatedImageContainer := generatedImageContainer s;
     loader := loader s; errorMessage := errorMessage s;
     console := console s; object_urls := object_urls s;
     loading := loading s; requests := requests s; pending := pending s |}.

Definition set_originalImagePreview v s :=
  {| selectedFile := selectedFile s;
     imageUpload_disabled := imageUpload_disabled s;
     submitBtn_disabled := submitBtn_disabled s;
     originalImagePreview := v;
     generatedImageContainer := generatedImageContainer s;
     loader := loader s; errorMessage := errorMessage s;
     console := console s; object_urls := object_urls s;
     loading := loading s; requests := requests s; pending := pending s |}.

Definition set_generatedImageContainer v s :=
  {| selectedFile := selectedFile s;
     imageUpload_disabled := imageUpload_disabled s;
     submitBtn_disabled := submitBtn_disabled s;
     originalImagePreview := originalImagePreview s;
     generatedImageContainer := v;
     loader := loader s; errorMessage := errorMessage s;
     console := console s; object_urls := object_urls s;
     loading := loading s; requests := requests s; pending := pending s |}.

Definition set_loader v s :=
  {| selectedFile := selectedFile s;
     imageUpload_disabled := imageUpload_disabled s;
     submitBtn_disabled := submitBtn_disabled s;
     originalImagePreview := originalImagePreview s;
     generatedImageContainer := generatedImageContainer s;
     loader := v; errorMessage := errorMessage s;
     console := console s; object_urls := object_urls s;
     loading := loading s; requests := requests s; pending := pending s |}.

Definition set_errorMessage v s :=
  {| selectedFile := selectedFile s;
     imageUpload_disabled := imageUpload_disabled s;
     submitBtn_disabled := submitBtn_disabled s;
     originalImagePreview := originalImagePreview s;
     generatedImageContainer := generatedImageContainer s;
     loader := loader s; errorMessage := v;
     console := console s; object_urls := object_urls s;
     loading := loading s; requests := requests s; pending := pending s |}.

Definition set_console v s :=
  {| selectedFile := selectedFile s;
     imageUpload_disabled := imageUpload_disabled s;
     submitBtn_disabled := submitBtn_disabled s;
     originalImagePreview := originalImagePreview s;
     generatedImageContainer := generatedImageContainer s;
     loader := loader s; errorMessage := errorMessage s;
     console := v; object_urls := object_urls s;
     loading := loading s; requests := requests s; pending := pending s |}.

Definition set_object_urls v s :=
  {| selectedFile := selectedFile s;
     imageUpload_disabled := imageUpload_disabled s;
     submitBtn_disabled := submitBtn_disabled s;
     originalImagePreview := originalImagePreview s;
     generatedImageContainer := generatedImageContainer s;
     loader := loader s; errorMessage := errorMessage s;
     console := console s; object_urls := v;
     loading := loading s; requests := requests s; pending := pending s |}.

Definition set_loading v s :=
  {| selectedFile := selectedFile s;
     imageUpload_disabled := imageUpload_disabled s;
     submitBtn_disabled := submitBtn_disabled s;
     originalImagePreview := originalImagePreview s;
     generatedImageContainer := generatedImageContainer s;
     loader := loader s; errorMessage := errorMessage s;
     console := console s; object_urls := object_urls s;
     loading := v; requests := requests s; pending := pending s |}.

Definition set_requests v s :=
  {| selectedFile := selectedFile s;
     imageUpload_disabled := imageUpload_disabled s;
     submitBtn_disabled := submitBtn_disabled s;
     originalImagePreview := originalImagePreview s;
     generatedImageContainer := generatedImageContainer s;
     loader := loader s; errorMessage := errorMessage s;
     console := console s; object_urls := object_urls s;
     loading := loading s; requests := v; pending := pending s |}.

Definition set_pending v s :=
  {| selectedFile := selectedFile s;
     imageUpload_disabled := imageUpload_disabled s;
     submitBtn_disabled := submitBtn_disabled s;
     originalImagePreview := originalImagePreview s;
     generatedImageContainer := generatedImageContainer s;
     loader := loader s; errorMessage := errorMessage s;
     console := console s; object_urls := object_urls s;
     loading := loading s; requests := requests s; pending := v |}.

(* ===================================================================== *)
(** ** Helpers and constants of the script *)
(* ===================================================================== *)

Definition no_file_message : string := "Lütfen önce bir resim dosyası seçin.".

Definition defaultError : string :=
  "Yanıt bir resim içermiyor. Modelin güvenlik filtreleri tarafından engellenmiş olabilir.".

Definition unknown_error : string := "Bilinmeyen bir hata oluştu.".

Definition generated_alt : string :=
  "Yapay zeka tarafından oluşturulan tarihi anı".

Definition prompt : string :=
  "Bu fotoğraftaki kişiyi analiz et. Kişinin yüzünü ve kimliğini koruyarak, giyimini ve içinde bulunduğu ortamı Atatürk'ün yaşadığı döneme (1920'ler-1930'lar Türkiye'si) uygun şekilde tamamen değiştir. Ardından, Mustafa Kemal Atatürk'ü bu yeni ortama, fotoğraftaki kişiyle doğal bir şekilde yan yana duruyormuş gibi ekle. Son olarak, fotoğrafın tamamını o döneme ait otantik, sepya tonlu veya siyah-beyaz, grenli ve dönemin ışıklandırma özelliklerini taşıyan eski bir fotoğraf gibi stilize et. Nihai sonuç, o yıllarda çekilmiş gerçek bir tarihi anı gibi görünmeli.".

(** What the engine throws for [selectedFile.type] on a null
    [selectedFile]; the wording is the engine's. *)
Definition null_type_error : JS.thrown :=
  JS.Error "Cannot read properties of null (reading 'type')".

(** [displayError]: the text of the error-message element, when there is
    one, and a console line in any case. *)
Definition displayError (msg : string) (s : page) : page :=
  let s := set_errorMessage ((fun _ => msg) <$> errorMessage s) s in
  set_console (console s ++ [msg]) s.

(** [setLoading] *)
Definition setLoading (isLoading : bool) (s : page) : page :=
  let s := set_loader ((fun _ => negb isLoading) <$> loader s) s in
  let s := set_submitBtn_disabled isLoading s in
  set_imageUpload_disabled isLoading s.

(** The block both handlers share: the first [img] or [p] under the
    result container is removed, when the container and such an element
    exist. *)
Definition remove_existing_result (s : page) : page :=
  match generatedImageContainer s with
  | Some c =>
      match DOM.remove_first c with
      | Some c' => set_generatedImageContainer (Some c') s
      | None => s
      end
  | None => s
  end.

(** [generatedImageContainer.appendChild(el)] under its guard. *)
Definition append_result (el : node) (s : page) : page :=
  match generatedImageContainer s with
  | Some c => set_generatedImageContainer (Some (c ++ [el])) s
  | None => s
  end.

(** The preview image of the selection handler. *)
Definition preview_img (url : string) : node :=
  Elem "img" [("src", url)] (Some RevokeOwnSrc) [].

(** The image element of the success branch. *)
Definition generated_img (src : string) : node :=
  Elem "img" [("src", src); ("alt", generated_alt)] None [].

(** The paragraph of the [catch] block. *)
Definition error_paragraph (msg : string) : node :=
  Elem "p" [("className", "error-in-box")] None (DOM.text_kids msg).

(** The template literal of the success branch. *)
Definition data_uri (b : Blob) : string :=
  "data:" +:+ JS.interpolate (mimeType b) +:+ ";base64,"
          +:+ JS.interpolate (data b).

(** [response.candidates?.[0]?.content?.parts || []] *)
Definition response_parts (r : GenerateContentResponse) : list Part :=
  match candidates r with
  | Some (c :: _) =>
      match content c with
      | Some ct => match parts ct with Some ps => ps | None => [] end
      | None => []
      end
  | _ => []
  end.

(** [parts.find(part => part.inlineData)]: an object is always truthy. *)
Definition find_imagePart (ps : list Part) : option Part :=
  find (fun part => match inlineData part with Some _ => true | None => false end) ps.

(** [parts.find(part => part.text)]: an empty text is falsy. *)
Definition find_textPart (ps : list Part) : option Part :=
  find (fun part => JS.truthy (text part)) ps.

(** The argument of [generateContent]. *)
Definition make_request (base64Image : option string) (mime : string) : request :=
  {| model := "gemini-2.5-flash-image-preview";
     contents :=
       [ {| inlineData := Some {| data := base64Image; mimeType := Some mime |};
            text := None |};
         {| inlineData := None; text := Some prompt |} ];
     responseModalities := ["IMAGE"; "TEXT"] |}.

(* ===================================================================== *)
(** ** The selection handler *)
(* ===================================================================== *)

(** The [change] listener of the file input.  [files] is
    [imageUpload.files] at the time of the event and [url] the string
    [URL.createObjectURL] returns if it is called. *)
Definition on_change (files : option (list File)) (url : string) (s : page) : page :=
  match files with
  | Some (file :: _) =>
      let s := set_selectedFile (Some file) s in
      let s :=
        match originalImagePreview s with
        | Some _ =>
            let img := preview_img url in
            let s := set_object_urls (<[url := file]> (object_urls s)) s in
            let s := set_loading (loading s ++ [img]) s in
            set_originalImagePreview (Some [img]) s
        | None => s
        end in
      let s := set_submitBtn_disabled false s in
      let s := remove_existing_result s in
      displayError EmptyString s
  | _ => s
  end.

(** The [load] event of an image: its [onload] closure, if it has one. *)
Definition on_load (img : node) (s : page) : page :=
  match img with
  | Elem _ _ (Some RevokeOwnSrc) _ =>
      set_object_urls (delete (DOM.prop "src" img) (object_urls s)) s
  | _ => s
  end.

(* ===================================================================== *)
(** ** The submission handler *)
(* ===================================================================== *)

(** The [catch] block. *)
Definition catch_block (error : JS.thrown) (s : page) : page :=
  let specificError := JS.or_else (JS.message error) unknown_error in
  append_result (error_paragraph specificError) s.

(** The [finally] block, after which the handler suspended at index [i]
    is over. *)
Definition finally_block (i : nat) (s : page) : page :=
  let s := setLoading false s in
  set_pending (delete i (pending s)) s.

(** The [click] listener up to its first [await]. *)
Definition on_click (s : page) : page :=
  match selectedFile s with
  | None => displayError no_file_message s
  | Some file =>
      let s := remove_existing_result s in
      let s := setLoading true s in
      let s := displayError EmptyString s in
      set_pending (pending s ++ [AwaitRead file]) s
  end.

(** From the first [await] to the second, or to the end when
    [fileToBase64] rejects. *)
Definition on_read_settled (i : nat) (r : read_result) (s : page) : page :=
  match fileToBase64 r with
  | JS.Rejected error => finally_block i (catch_block error s)
  | JS.Resolved base64Image =>
      match selectedFile s with
      | Some file =>
          let s := set_requests
                     (requests s ++ [make_request base64Image (type file)]) s in
          set_pending (<[i := AwaitResponse]> (pending s)) s
      | None => finally_block i (catch_block null_type_error s)
      end
  end.

(** From the second [await] to the end. *)
Definition on_response_settled (i : nat)
    (r : JS.settled GenerateContentResponse) (s : page) : page :=
  match r with
  | JS.Rejected error => finally_block i (catch_block error s)
  | JS.Resolved response =>
      let ps := response_parts response in
      let imagePart := find_imagePart ps in
      let textPart := find_textPart ps in
      match imagePart ≫= inlineData with
      | Some blob =>
          finally_block i (append_result (generated_img (data_uri blob)) s)
      | None =>
          let error := JS.Error (JS.or_else (textPart ≫= text) defaultError) in
          finally_block i (catch_block error s)
      end
  end.

(* ===================================================================== *)
(** ** The page as a transition system *)
(* ===================================================================== *)

(** What can happen to the page.  The browser delivers no [change] event
    from a disabled file input and no [click] from a disabled button; an
    object URL it hands out is not in use. *)
Inductive event :=
| Change (files : option (list File)) (url : string)
| Click
| ReadSettled (i : nat) (r : read_result)
| ResponseSettled (i : nat) (r : JS.settled GenerateContentResponse)
| ImageLoad (i : nat).

Definition step (e : event) (s : page) : option page :=
  match e with
  | Change files url =>
      if imageUpload_disabled s then None
      else match object_urls s !! url with
           | Some _ => None
           | None => Some (on_change files url s)
           end
  | Click =>
      if submitBtn_disabled s then None else Some (on_click s)
  | ReadSettled i r =>
      match pending s !! i with
      | Some (AwaitRead _) => Some (on_read_settled i r s)
      | _ => None
      end
  | ResponseSettled i r =>
      match pending s !! i with
      | Some AwaitResponse => Some (on_response_settled i r s)
      | _ => None
      end
  | ImageLoad i =>
      match loading s !! i with
      | Some img => Some (on_load img (set_loading (delete i (loading s)) s))
      | None => None
      end
  end.

Fixpoint run (es : list event) (s : page) : option page :=
  match es with
  | [] => Some s
  | e :: es' =>
      match step e s with
      | Some s' => run es' s'
      | None => None
      end
  end.

(** Modelled from the spec: the document ([index.html]) is not among the
    sources, so the page the script finds at start-up is any page with no
    file selected ([let selectedFile = null]), nothing suspended, no call
    made, no image being loaded by the script, and a result area that
    holds no image and no paragraph yet: the spec's result area holds
    nothing but what the two handlers put there. *)
Record initial (s : page) : Prop := {
  init_selectedFile : selectedFile s = None;
  init_pending : pending s = [];
  init_requests : requests s = [];
  init_loading : loading s = [];
  init_result :
    forall c, generatedImageContainer s = Some c -> DOM.querySelectorAll c = []
}.

Inductive reachable : page -> Prop :=
| reachable_init s : initial s -> reachable s
| reachable_step s e s' : reachable s -> step e s = Some s' -> reachable s'.

(** One whole submission that runs alone: the click, the read, and the
    response when the read succeeded. *)
Definition submit (rd : read_result) (sv : JS.settled GenerateContentResponse)
    (s : page) : page :=
  let s1 := on_click s in
  match pending s1 !! 0%nat with
  | Some (AwaitRead _) =>
      let s2 := on_read_settled 0 rd s1 in
      match pending s2 !! 0%nat with
      | Some AwaitResponse => on_response_settled 0 sv s2
      | _ => s2
      end
  | _ => s1
  end.

(* ===================================================================== *)
(** ** Predicates on pages *)
(* ===================================================================== *)

(** What the result area may hold: under it, the elements that are an
    [img] or a [p] are none, or the one image of a success, or the one
    paragraph of a failure. *)
Definition result_ok (c : list node) : Prop :=
  DOM.querySelectorAll c = []
  \/ (exists src, DOM.querySelectorAll c = [generated_img src])
  \/ (exists msg, DOM.querySelectorAll c = [error_paragraph msg]).

(** Both controls disabled, the loader (if any) shown. *)
Definition busy (s : page) : Prop :=
  submitBtn_disabled s = true /\ imageUpload_disabled s = true
  /\ forall hidden, loader s = Some hidden -> hidden = false.

(** Both controls enabled, the loader (if any) hidden. *)
Definition idle (s : page) : Prop :=
  submitBtn_disabled s = false /\ imageUpload_disabled s = false
  /\ forall hidden, loader s = Some hidden -> hidden = true.

(** What holds of every page the script can bring about: at most one
    handler is suspended and the page is busy while it is; the result area
    is empty of results while a request is under way and holds at most one
    result otherwise; a suspended handler has a selected file. *)
Record invariant (s : page) : Prop := {
  inv_pending : pending s = [] \/ (exists ph, pending s = [ph] /\ busy s);
  inv_result : forall c, generatedImageContainer s = Some c ->
      result_ok c /\ (pending s <> [] -> DOM.querySelectorAll c = []);
  inv_file : pending s <> [] -> selectedFile s <> None
}.

(** The measure of progress of a removal: the number of selected
    elements goes down; where nothing is removed, nothing was
    selected. *)
Definition shrinks_under (n : node) : Prop :=
  DOM.selected n = false ->
  match DOM.remove_first_under n with
  | Some n' =>
      DOM.selected n' = false
      /\ length (DOM.selected_under n') < length (DOM.selected_under n)
  | None => DOM.selected_under n = []
  end.

Definition shrinks (l : list node) : Prop :=
  match DOM.remove_first l with
  | Some l' => length (DOM.querySelectorAll l') < length (DOM.querySelectorAll l)
  | None => DOM.querySelectorAll l = []
  end.

(* ===================================================================== *)
(** ** Sample pages, files and responses *)
(* ===================================================================== *)

Module Sample.

Definition photo : File :=
  {| name := "me.png"; type := "image/png"; bytes := [x4d; x61; x6e] |}.

(** A page at start-up, with all six elements and the loader inside the
    result container. *)
Definition fresh_page : page :=
  {| selectedFile := None;
     imageUpload_disabled := false;
     submitBtn_disabled := true;
     originalImagePreview := Some [];
     generatedImageContainer := Some [Elem "div" [("id", "loader")] None []];
     loader := Some true;
     errorMessage := Some EmptyString;
     console := [];
     object_urls := ∅;
     loading := [];
     requests := [];
     pending := [] |}.

Definition response_of (ps : list Part) : GenerateContentResponse :=
  {| candidates := Some [ {| content := Some {| parts := Some ps |} |} ] |}.

Definition png : Blob :=
  {| data := Some "QUJD"; mimeType := Some "image/png" |}.

(** A text part, then an image part. *)
Definition image_response : GenerateContentResponse :=
  response_of [ {| inlineData := None; text := Some "Here it is" |};
                {| inlineData := Some png; text := None |} ].

(** A refusal in words. *)
Definition text_response : GenerateContentResponse :=
  response_of [ {| inlineData := None; text := Some "blocked by safety filters" |} ].

(** One text part, whose text is empty. *)
Definition empty_text_response : GenerateContentResponse :=
  response_of [ {| inlineData := None; text := Some EmptyString |} ].

(** An empty text part and a part without text, then the refusal in
    words, then one more text. *)
Definition late_text_response : GenerateContentResponse :=
  response_of [ {| inlineData := None; text := Some EmptyString |};
                {| inlineData := None; text := None |};
                {| inlineData := None; text := Some "blocked by safety filters" |};
                {| inlineData := None; text := Some "ignored" |} ].

Definition read_ok : read_result := ReadLoad (data_url (type photo) (bytes photo)).

(** The user has picked [photo]. *)
Definition selected_page : page := on_change (Some [photo]) "blob:1" fresh_page.

(** The request for [photo] is under way. *)
Definition awaiting_page : page := on_read_settled 0 read_ok (on_click selected_page).

(** After a refused submission of [photo]. *)
Definition refused_page : page :=
  submit read_ok (JS.Resolved text_response) selected_page.

(** After a successful submission of [photo]. *)
Definition done_page : page :=
  submit read_ok (JS.Resolved image_response) selected_page.

End Sample.

(* ===================================================================== *)
(** ** Further predicates on pages *)
(* ===================================================================== *)



(** The fixed part of every call: the model, the two modalities asked
    for, and the prompt after the one inline image. *)
Definition fixed_request (r : request) : Prop :=
  model r = "gemini-2.5-flash-image-preview"
  /\ responseModalities r = ["IMAGE"; "TEXT"]
  /\ exists base64Image mime,
       contents r =
         [ {| inlineData := Some {| data := base64Image; mimeType := Some mime |};
              text := None |};
           {| inlineData := None; text := Some prompt |} ].

(* ===================================================================== *)
(** ** Tactics *)
(* ===================================================================== *)

(** Unfold the handlers and split on every [match] they hold. *)
Ltac handlers :=
  unfold on_change, on_click, on_read_settled, on_response_settled,
    on_load, finally_block, catch_block, append_result,
    remove_existing_result, displayError, setLoading.

Ltac page_cases := handlers; repeat case_match; cbn.

(** Rewrite with the equations of the case analysis and split on the
    optional elements left. *)
Ltac presence :=
  page_cases; cbn in *;
  repeat match goal with
         | H : _ = Some _ |- _ => rewrite H
         | H : _ = None |- _ => rewrite H
         end;
  repeat match goal with
         | |- context [errorMessage ?t] => destruct (errorMessage t)
         | |- context [loader ?t] => destruct (loader t)
         end;
  reflexivity.

(* ********************************************************************* *)
(** * Proofs *)
(* ********************************************************************* *)

(* ===================================================================== *)
(** ** Splitting at commas and the base64 alphabet *)
(* ===================================================================== *)

Section Split.

Variable sep : ascii.

Lemma split_not_nil (s : string) : JS.split sep s <> [].
Proof.
  induction s as [|a s IH]; simpl; [discriminate|].
  destruct (Ascii.eqb a sep); [discriminate|].
  destruct (JS.split sep s); discriminate.
Qed.

(** A string without the separator is its own single piece. *)
Lemma split_absent (s : string) :
  JS.occurs sep s = false -> JS.split sep s = [s].
Proof.
  induction s as [|a s IH]; simpl; [reflexivity|].
  intros H. apply orb_false_iff in H as [Ha Hs].
  rewrite Ha, (IH Hs). reflexivity.
Qed.

(** A prefix without the separator stays in front of the first piece. *)
Lemma split_prefix (a b : string) :
  JS.occurs sep a = false ->
  JS.split sep (a +:+ b) =
    match JS.split sep b with
    | piece :: pieces => (a +:+ piece) :: pieces
    | [] => [a]
    end.
Proof.
  induction a as [|c a IH].
  - intros _. change (EmptyString +:+ b) with b.
    destruct (JS.split sep b) eqn:E; [|reflexivity].
    exfalso. exact (split_not_nil b E).
  - intros H. cbn [JS.occurs] in H. apply orb_false_iff in H as [Hc Ha].
    change (String c a +:+ b) with (String c (a +:+ b)).
    cbn [JS.split]. rewrite Hc, (IH Ha).
    destruct (JS.split sep b) eqn:E; [|reflexivity].
    exfalso. exact (split_not_nil b E).
Qed.

End Split.

Module Base64Facts.

Lemma digit_not_comma (i : N) : Ascii.eqb (Base64.digit i) "," = false.
Proof.
  unfold Base64.digit.
  assert (Hall : forallb (fun a => negb (Ascii.eqb a ",")) Base64.alphabet = true)
    by reflexivity.
  rewrite forallb_forall in Hall.
  destruct (nth_in_or_default (N.to_nat i) Base64.alphabet "A"%char) as [Hin|Hd].
  - apply negb_true_iff. exact (Hall _ Hin).
  - rewrite Hd. reflexivity.
Qed.

(** Three bytes at a time. *)
Lemma by_triples (P : list byte -> Prop) :
  P [] -> (forall a, P [a]) -> (forall a b, P [a; b]) ->
  (forall a b c rest, P rest -> P (a :: b :: c :: rest)) ->
  forall bs, P bs.
Proof.
  intros H0 H1 H2 H3.
  fix IH 1. intros [|a [|b [|c rest]]].
  - exact H0.
  - exact (H1 a).
  - exact (H2 a b).
  - exact (H3 a b c rest (IH rest)).
Qed.

(** The encoding holds no comma. *)
Lemma encode_no_comma (bs : list byte) :
  JS.occurs "," (Base64.encode bs) = false.
Proof.
  induction bs as [|a|a b|a b c rest IH] using by_triples;
    cbn [Base64.encode JS.occurs];
    rewrite ?digit_not_comma, ?IH; reflexivity.
Qed.

Example encode_Man : Base64.encode [x4d; x61; x6e] = "TWFu".
Proof. reflexivity. Qed.

Example encode_Ma : Base64.encode [x4d; x61] = "TWE=".
Proof. reflexivity. Qed.

Example encode_M : Base64.encode [x4d] = "TQ==".
Proof. reflexivity. Qed.

End Base64Facts.

(** C7. When the platform's read succeeds with the base64 data URL of the
    file's bytes (its media type, as in any data URL, holding no comma),
    [fileToBase64] resolves with the base64 text of the bytes, the prefix
    up to the comma stripped; when the read fails, it rejects with the
    value the platform reports. *)
Theorem fileToBase64_strips_prefix (mediatype : string) (file : File) :
  JS.occurs "," mediatype = false ->
  fileToBase64 (ReadLoad (data_url mediatype (bytes file)))
    = JS.Resolved (Some (Base64.encode (bytes file)))
  /\ forall ev, fileToBase64 (ReadError ev) = JS.Rejected ev.
Proof.
  intros Hm. split; [|reflexivity].
  unfold fileToBase64, data_url. f_equal.
  change ("data:" +:+ mediatype +:+ ";base64," +:+ Base64.encode (bytes file))
    with ("data:" +:+ (mediatype +:+ ";base64," +:+ Base64.encode (bytes file))).
  rewrite (split_prefix "," "data:") by reflexivity.
  rewrite (split_prefix "," mediatype) by exact Hm.
  change (";base64," +:+ Base64.encode (bytes file))
    with (";base64" +:+ String "," (Base64.encode (bytes file))).
  rewrite (split_prefix "," ";base64") by reflexivity.
  cbn [JS.split Ascii.eqb Bool.eqb].
  rewrite (split_absent "," _ (Base64Facts.encode_no_comma (bytes file))).
  reflexivity.
Qed.

Lemma fileToBase64_strips_prefix_witness :
  JS.occurs "," "image/png" = false
  /\ fileToBase64 Sample.read_ok = JS.Resolved (Some "TWFu").
Proof.
  split; [reflexivity|].
  exact (proj1 (fileToBase64_strips_prefix "image/png" Sample.photo eq_refl)).
Defined.

(* ===================================================================== *)
(** ** Removing the first [img] or [p] *)
(* ===================================================================== *)

Module DOMFacts.

(** Induction on nodes with the children covered. *)
Lemma node_kids_ind (P : node -> Prop) :
  (forall chars, P (Text chars)) ->
  (forall tag props h kids, Forall P kids -> P (Elem tag props h kids)) ->
  forall n, P n.
Proof.
  intros HT HE. fix IH 1. intros [tag props h kids | chars].
  - apply HE. induction kids as [|k kids IHk]; constructor.
    + apply IH.
    + exact IHk.
  - apply HT.
Qed.

Lemma remove_first_under_Elem tag props h kids :
  DOM.remove_first_under (Elem tag props h kids)
    = Elem tag props h <$> DOM.remove_first kids.
Proof.
  reflexivity.
Qed.

Lemma querySelectorAll_cons k rest :
  DOM.querySelectorAll (k :: rest)
    = DOM.selected_under k ++ DOM.querySelectorAll rest.
Proof. reflexivity. Qed.

Lemma querySelectorAll_app l1 l2 :
  DOM.querySelectorAll (l1 ++ l2)
    = DOM.querySelectorAll l1 ++ DOM.querySelectorAll l2.
Proof. unfold DOM.querySelectorAll. apply flat_map_app. Qed.

Lemma selected_under_selected n :
  DOM.selected n = true ->
  exists below, DOM.selected_under n = n :: below.
Proof.
  destruct n as [tag props h kids | chars]; [|discriminate].
  intros H. cbn [DOM.selected_under]. rewrite H. eexists. reflexivity.
Qed.

Lemma selected_under_Elem_unselected tag props h kids :
  DOM.selected (Elem tag props h kids) = false ->
  DOM.selected_under (Elem tag props h kids) = DOM.querySelectorAll kids.
Proof. intros H. cbn [DOM.selected_under]. rewrite H. reflexivity. Qed.

Lemma shrinks_of_kids (l : list node) : Forall shrinks_under l -> shrinks l.
Proof.
  unfold shrinks. induction 1 as [|k rest Hk _ IH]; [reflexivity|].
  cbn [DOM.remove_first]. rewrite querySelectorAll_cons.
  destruct (DOM.selected k) eqn:Hsel.
  - destruct (selected_under_selected k Hsel) as [below ->].
    rewrite length_app. cbn [length]. lia.
  - specialize (Hk Hsel).
    destruct (DOM.remove_first_under k) as [k'|].
    + rewrite querySelectorAll_cons, !length_app. lia.
    + rewrite Hk. cbn [app].
      destruct (DOM.remove_first rest) as [rest'|]; cbn [fmap option_fmap option_map].
      * rewrite querySelectorAll_cons, Hk. exact IH.
      * exact IH.
Qed.

Lemma shrinks_under_all (n : node) : shrinks_under n.
Proof.
  induction n as [chars | tag props h kids IH] using node_kids_ind;
    unfold shrinks_under; intros Hsel.
  - reflexivity.
  - rewrite remove_first_under_Elem.
    pose proof (shrinks_of_kids kids IH) as Hk. unfold shrinks in Hk.
    rewrite (selected_under_Elem_unselected _ _ _ _ Hsel).
    destruct (DOM.remove_first kids) as [kids'|]; cbn [fmap option_fmap option_map].
    + split; [exact Hsel|].
      rewrite (selected_under_Elem_unselected tag props h kids' Hsel).
      exact Hk.
    + exact Hk.
Qed.

Lemma remove_first_shrinks (l : list node) : shrinks l.
Proof.
  apply shrinks_of_kids, Forall_forall. intros n _. apply shrinks_under_all.
Qed.

(** [remove_first] acts exactly when [querySelector] finds an
    element. *)
Lemma remove_first_None (l : list node) :
  DOM.remove_first l = None <-> DOM.querySelector l = None.
Proof.
  pose proof (remove_first_shrinks l) as H. unfold shrinks in H.
  unfold DOM.querySelector.
  destruct (DOM.remove_first l) as [l'|].
  - split; [discriminate|].
    destruct (DOM.querySelectorAll l); [cbn [length] in H; lia | discriminate].
  - rewrite H. split; reflexivity.
Qed.

(** With at most one selected element under the container, none is
    left after the removal. *)
Lemma remove_first_clears (l l' : list node) :
  length (DOM.querySelectorAll l) <= 1 ->
  DOM.remove_first l = Some l' ->
  DOM.querySelectorAll l' = [].
Proof.
  intros Hle Hrm.
  pose proof (remove_first_shrinks l) as H. unfold shrinks in H.
  rewrite Hrm in H.
  destruct (DOM.querySelectorAll l'); [reflexivity | cbn [length] in H; lia].
Qed.

Lemma querySelectorAll_generated_img src :
  DOM.querySelectorAll [generated_img src] = [generated_img src].
Proof. reflexivity. Qed.

Lemma querySelectorAll_error_paragraph msg :
  DOM.querySelectorAll [error_paragraph msg] = [error_paragraph msg].
Proof. destruct msg; reflexivity. Qed.

Lemma append_empty (s : string) : s +:+ EmptyString = s.
Proof.
  induction s as [|a s IH]; [reflexivity|].
  change (String a s +:+ EmptyString) with (String a (s +:+ EmptyString)). rewrite IH.
  reflexivity.
Qed.

Lemma textContent_error_paragraph msg :
  DOM.textContent (error_paragraph msg) = msg.
Proof.
  destruct msg as [|a msg]; [reflexivity|].
  change (DOM.textContent (error_paragraph (String a msg)))
    with (String a msg +:+ EmptyString).
  apply append_empty.
Qed.

Lemma result_ok_length (c : list node) :
  result_ok c -> length (DOM.querySelectorAll c) <= 1.
Proof.
  intros [H | [[src H] | [msg H]]]; rewrite H; cbn [length]; lia.
Qed.

End DOMFacts.

(* ===================================================================== *)
(** ** What the handlers leave alone and what they change *)
(* ===================================================================== *)

Section Frames.

Variable s : page.

Lemma remove_existing_result_container :
  generatedImageContainer (remove_existing_result s)
    = (fun c => default c (DOM.remove_first c)) <$> generatedImageContainer s.
Proof.
  unfold remove_existing_result.
  destruct (generatedImageContainer s) as [c|] eqn:Hc; simpl; [|exact Hc].
  destruct (DOM.remove_first c); simpl; [reflexivity | exact Hc].
Qed.

Lemma append_result_container el :
  generatedImageContainer (append_result el s)
    = (fun c => c ++ [el]) <$> generatedImageContainer s.
Proof.
  unfold append_result.
  destruct (generatedImageContainer s) as [c|] eqn:Hc; simpl;
    [reflexivity | exact Hc].
Qed.

Lemma finally_block_container i :
  generatedImageContainer (finally_block i s) = generatedImageContainer s.
Proof. reflexivity. Qed.

Lemma finally_block_idle i : idle (finally_block i s).
Proof.
  unfold idle; cbn. repeat split.
  destruct (loader s); cbn; congruence.
Qed.

Lemma on_click_busy file :
  selectedFile s = Some file -> busy (on_click s).
Proof.
  intros Hf. unfold on_click. rewrite Hf. unfold busy; cbn.
  repeat split.
  unfold remove_existing_result.
  destruct (generatedImageContainer s) as [c|]; [destruct (DOM.remove_first c)|];
    cbn; destruct (loader s); cbn; congruence.
Qed.

End Frames.

(** After the shared removal block, a result area that held at most one
    result holds none. *)
Lemma remove_existing_result_clears (s : page) (c' : list node) :
  (forall c, generatedImageContainer s = Some c -> result_ok c) ->
  generatedImageContainer (remove_existing_result s) = Some c' ->
  DOM.querySelectorAll c' = [].
Proof.
  intros Hok. rewrite remove_existing_result_container.
  destruct (generatedImageContainer s) as [c|]; [|discriminate].
  cbn. intros [= <-].
  destruct (DOM.remove_first c) as [c1|] eqn:Hrm; cbn.
  - eapply DOMFacts.remove_first_clears; [|exact Hrm].
    apply DOMFacts.result_ok_length, Hok. reflexivity.
  - pose proof (DOMFacts.remove_first_shrinks c) as H.
    unfold shrinks in H. rewrite Hrm in H. exact H.
Qed.

Lemma result_ok_empty (c : list node) : DOM.querySelectorAll c = [] -> result_ok c.
Proof. left. assumption. Qed.

Lemma result_ok_append_img (c : list node) src :
  DOM.querySelectorAll c = [] -> result_ok (c ++ [generated_img src]).
Proof.
  intros H. right; left. exists src.
  rewrite DOMFacts.querySelectorAll_app, H. reflexivity.
Qed.

Lemma result_ok_append_error (c : list node) msg :
  DOM.querySelectorAll c = [] -> result_ok (c ++ [error_paragraph msg]).
Proof.
  intros H. right; right. exists msg.
  rewrite DOMFacts.querySelectorAll_app, H.
  apply DOMFacts.querySelectorAll_error_paragraph.
Qed.

(* ===================================================================== *)
(** ** The invariant *)
(* ===================================================================== *)

Lemma initial_invariant (s : page) : initial s -> invariant s.
Proof.
  intros [Hf Hp Hr Hl Hc]. split.
  - left. exact Hp.
  - intros c Hs. split; [apply result_ok_empty, Hc, Hs | intros _; apply Hc, Hs].
  - rewrite Hp. congruence.
Qed.

(** A page that takes a [change] or a [click] has nothing suspended. *)
Lemma enabled_not_pending (s : page) :
  invariant s ->
  imageUpload_disabled s = false \/ submitBtn_disabled s = false ->
  pending s = [].
Proof.
  intros [[Hp | [ph [_ (Hb1 & Hb2 & _)]]] _ _] H; [exact Hp|].
  destruct H; congruence.
Qed.

(** A settling handler is the only one suspended. *)
Lemma pending_single (s : page) (i : nat) (ph : phase) :
  invariant s -> pending s !! i = Some ph ->
  i = 0%nat /\ pending s = [ph] /\ busy s.
Proof.
  intros [[Hp | [ph' [Hp Hb]]] _ _] Hi; rewrite Hp in Hi.
  - discriminate.
  - destruct i as [|i]; [|destruct i; discriminate].
    injection Hi as <-. auto.
Qed.

Lemma on_change_invariant files url (s : page) :
  invariant s -> imageUpload_disabled s = false ->
  invariant (on_change files url s).
Proof.
  intros Hinv Hen.
  assert (Hp : pending s = []) by (apply enabled_not_pending; auto).
  destruct files as [[|file rest]|]; try exact Hinv.
  assert (Hpend : pending (on_change (Some (file :: rest)) url s) = []).
  { rewrite <- Hp. page_cases; reflexivity. }
  split.
  - left. exact Hpend.
  - intros c Hc.
    assert (Hq : DOM.querySelectorAll c = []).
    { unfold on_change in Hc. cbn [displayError generatedImageContainer
        set_console set_errorMessage] in Hc.
      eapply remove_existing_result_clears; [|exact Hc].
      intros c0 Hc0. apply (inv_result _ Hinv).
      rewrite <- Hc0. cbn. destruct (originalImagePreview s); reflexivity. }
    split; [apply result_ok_empty, Hq | intros _; exact Hq].
  - rewrite Hpend. congruence.
Qed.

(** The invariant reads six fields only. *)
Lemma invariant_same (s s' : page) :
  pending s' = pending s ->
  generatedImageContainer s' = generatedImageContainer s ->
  selectedFile s' = selectedFile s ->
  submitBtn_disabled s' = submitBtn_disabled s ->
  imageUpload_disabled s' = imageUpload_disabled s ->
  loader s' = loader s ->
  invariant s -> invariant s'.
Proof.
  intros Hp Hc Hf Hs Hu Hl [Ip Ir If]. split.
  - rewrite Hp. destruct Ip as [Ip | [ph [Ip (B1 & B2 & B3)]]]; [left; exact Ip|].
    right. exists ph. split; [exact Ip|]. unfold busy.
    rewrite Hs, Hu, Hl. auto.
  - rewrite Hp, Hc. exact Ir.
  - rewrite Hp, Hf. exact If.
Qed.

Lemma displayError_invariant msg (s : page) :
  invariant s -> invariant (displayError msg s).
Proof. apply invariant_same; reflexivity. Qed.

Lemma on_load_invariant img (s : page) : invariant s -> invariant (on_load img s).
Proof.
  apply invariant_same; unfold on_load;
    destruct img as [tag props [[]|] kids | chars]; reflexivity.
Qed.

(** The end of a submission: one element is appended to a result area
    that held no result, and the [finally] block runs. *)
Lemma finish_invariant (s : page) (ph : phase) (el : node) :
  pending s = [ph] ->
  (forall c, generatedImageContainer s = Some c -> DOM.querySelectorAll c = []) ->
  (exists src, el = generated_img src) \/ (exists msg, el = error_paragraph msg) ->
  invariant (finally_block 0 (append_result el s)).
Proof.
  intros Hp Hq Hel.
  assert (Hpend : pending (finally_block 0 (append_result el s)) = []).
  { unfold finally_block, append_result.
    destruct (generatedImageContainer s); cbn; rewrite Hp; reflexivity. }
  split.
  - left. exact Hpend.
  - intros c Hc.
    rewrite finally_block_container, append_result_container in Hc.
    destruct (generatedImageContainer s) as [c0|]; [|discriminate].
    cbn in Hc. injection Hc as <-. split; [|rewrite Hpend; congruence].
    specialize (Hq c0 eq_refl).
    destruct Hel as [[src ->] | [msg ->]].
    + apply result_ok_append_img, Hq.
    + apply result_ok_append_error, Hq.
  - rewrite Hpend. congruence.
Qed.

Lemma on_click_invariant (s : page) :
  invariant s -> submitBtn_disabled s = false -> invariant (on_click s).
Proof.
  intros Hinv Hen.
  assert (Hp : pending s = []) by (apply enabled_not_pending; auto).
  destruct (selectedFile s) as [file|] eqn:Hf.
  - assert (Hpend : pending (on_click s) = [AwaitRead file]).
    { unfold on_click. rewrite Hf. cbn.
      unfold remove_existing_result.
      destruct (generatedImageContainer s) as [c|]; [destruct (DOM.remove_first c)|];
        cbn; rewrite Hp; reflexivity. }
    split.
    + right. exists (AwaitRead file). split; [exact Hpend|].
      apply (on_click_busy s file Hf).
    + intros c Hc.
      assert (Hq : DOM.querySelectorAll c = []).
      { unfold on_click in Hc. rewrite Hf in Hc.
        eapply remove_existing_result_clears; [|exact Hc].
        intros c0 Hc0. apply (inv_result _ Hinv). exact Hc0. }
      split; [apply result_ok_empty, Hq | intros _; exact Hq].
    + intros _. unfold on_click. rewrite Hf. cbn.
      unfold remove_existing_result.
      destruct (generatedImageContainer s) as [c|]; [destruct (DOM.remove_first c)|];
        cbn; congruence.
  - unfold on_click. rewrite Hf. apply displayError_invariant, Hinv.
Qed.

Lemma on_read_settled_invariant i r (s : page) file :
  invariant s -> pending s !! i = Some (AwaitRead file) ->
  invariant (on_read_settled i r s).
Proof.
  intros Hinv Hi.
  destruct (pending_single s i _ Hinv Hi) as (-> & Hp & Hb).
  assert (Hq : forall c, generatedImageContainer s = Some c ->
                         DOM.querySelectorAll c = []).
  { intros c Hc. apply (inv_result _ Hinv c Hc). rewrite Hp. discriminate. }
  unfold on_read_settled.
  destruct (fileToBase64 r) as [base64Image | error].
  - destruct (selectedFile s) as [f|] eqn:Hf.
    + split; cbn.
      * right. exists AwaitResponse. rewrite Hp. split; [reflexivity | exact Hb].
      * intros c Hc. split; [apply result_ok_empty|intros _]; apply Hq, Hc.
      * intros _. rewrite Hf. discriminate.
    + eapply finish_invariant; eauto.
  - eapply finish_invariant; eauto.
Qed.

Lemma on_response_settled_invariant i r (s : page) :
  invariant s -> pending s !! i = Some AwaitResponse ->
  invariant (on_response_settled i r s).
Proof.
  intros Hinv Hi.
  destruct (pending_single s i _ Hinv Hi) as (-> & Hp & Hb).
  assert (Hq : forall c, generatedImageContainer s = Some c ->
                         DOM.querySelectorAll c = []).
  { intros c Hc. apply (inv_result _ Hinv c Hc). rewrite Hp. discriminate. }
  unfold on_response_settled.
  destruct r as [response | error].
  - destruct (find_imagePart (response_parts response) ≫= inlineData) as [blob|].
    + eapply finish_invariant; eauto.
    + eapply finish_invariant; eauto.
  - eapply finish_invariant; eauto.
Qed.

Lemma step_invariant e (s s' : page) :
  invariant s -> step e s = Some s' -> invariant s'.
Proof.
  intros Hinv. destruct e as [files url | | i r | i r | i]; cbn [step].
  - destruct (imageUpload_disabled s) eqn:Hen; [discriminate|].
    destruct (object_urls s !! url); [discriminate|].
    intros [= <-]. apply on_change_invariant; assumption.
  - destruct (submitBtn_disabled s) eqn:Hen; [discriminate|].
    intros [= <-]. apply on_click_invariant; assumption.
  - destruct (pending s !! i) as [[file|]|] eqn:Hi; try discriminate.
    intros [= <-]. eapply on_read_settled_invariant; eassumption.
  - destruct (pending s !! i) as [[file|]|] eqn:Hi; try discriminate.
    intros [= <-]. eapply on_response_settled_invariant; eassumption.
  - destruct (loading s !! i) as [img|]; [|discriminate].
    intros [= <-]. apply on_load_invariant.
    revert Hinv. apply invariant_same; reflexivity.
Qed.

Lemma reachable_invariant (s : page) : reachable s -> invariant s.
Proof.
  induction 1 as [s Hi | s e s' _ IH Hstep].
  - apply initial_invariant, Hi.
  - eapply step_invariant; eassumption.
Qed.

Lemma run_reachable es (s s' : page) :
  reachable s -> run es s = Some s' -> reachable s'.
Proof.
  revert s. induction es as [|e es IH]; intros s Hr; cbn [run].
  - intros [= <-]. exact Hr.
  - destruct (step e s) as [s1|] eqn:Hs; [|discriminate].
    apply IH. eapply reachable_step; eassumption.
Qed.

(* ===================================================================== *)
(** ** The sample pages are reachable *)
(* ===================================================================== *)

Module SampleFacts.

Lemma fresh_initial : initial Sample.fresh_page.
Proof. split; try reflexivity. intros c [= <-]. reflexivity. Qed.

Lemma selected_run :
  run [Change (Some [Sample.photo]) "blob:1"] Sample.fresh_page
    = Some Sample.selected_page.
Proof. vm_compute. reflexivity. Qed.

Lemma awaiting_run :
  run [Click; ReadSettled 0 Sample.read_ok] Sample.selected_page
    = Some Sample.awaiting_page.
Proof. vm_compute. reflexivity. Qed.

Lemma refused_run :
  run [Click; ReadSettled 0 Sample.read_ok;
       ResponseSettled 0 (JS.Resolved Sample.text_response)]
      Sample.selected_page
    = Some Sample.refused_page.
Proof. vm_compute. reflexivity. Qed.

Lemma done_run :
  run [Click; ReadSettled 0 Sample.read_ok;
       ResponseSettled 0 (JS.Resolved Sample.image_response)]
      Sample.selected_page
    = Some Sample.done_page.
Proof. vm_compute. reflexivity. Qed.

Lemma fresh_reachable : reachable Sample.fresh_page.
Proof. apply reachable_init, fresh_initial. Qed.

Lemma selected_reachable : reachable Sample.selected_page.
Proof. exact (run_reachable _ _ _ fresh_reachable selected_run). Qed.

Lemma awaiting_reachable : reachable Sample.awaiting_page.
Proof. exact (run_reachable _ _ _ selected_reachable awaiting_run). Qed.

Lemma refused_reachable : reachable Sample.refused_page.
Proof. exact (run_reachable _ _ _ selected_reachable refused_run). Qed.

Lemma done_reachable : reachable Sample.done_page.
Proof. exact (run_reachable _ _ _ selected_reachable done_run). Qed.

Example done_result :
  generatedImageContainer Sample.done_page
    = Some [Elem "div" [("id", "loader")] None [];
            generated_img "data:image/png;base64,QUJD"].
Proof. vm_compute. reflexivity. Qed.

Example refused_result :
  generatedImageContainer Sample.refused_page
    = Some [Elem "div" [("id", "loader")] None [];
            error_paragraph "blocked by safety filters"].
Proof. vm_compute. reflexivity. Qed.

Example request_sent :
  requests Sample.awaiting_page
    = [make_request (Some "TWFu") "image/png"].
Proof. vm_compute. reflexivity. Qed.

End SampleFacts.

(* ===================================================================== *)
(** ** Reading the response *)
(* ===================================================================== *)

Section Find.

Context {A : Type} (p : A -> bool).

Lemma find_first (before : list A) (x : A) (after : list A) :
  Forall (fun y => p y = false) before -> p x = true ->
  find p (before ++ x :: after) = Some x.
Proof.
  intros Hb Hx. induction Hb as [|y before Hy _ IH]; cbn [app find].
  - rewrite Hx. reflexivity.
  - rewrite Hy. exact IH.
Qed.

Lemma find_none (l : list A) :
  Forall (fun y => p y = false) l -> find p l = None.
Proof.
  induction 1 as [|y l Hy _ IH]; cbn [find]; [reflexivity|].
  rewrite Hy. exact IH.
Qed.

End Find.

Lemma truthy_false (v : option string) :
  v = None \/ v = Some EmptyString -> JS.truthy v = false.
Proof. intros [-> | ->]; reflexivity. Qed.

Lemma truthy_true (t : string) : t <> EmptyString -> JS.truthy (Some t) = true.
Proof. destruct t; [congruence | reflexivity]. Qed.

Lemma or_else_truthy (t b : string) : t <> EmptyString -> JS.or_else (Some t) b = t.
Proof. destruct t; [congruence | reflexivity]. Qed.

Lemma no_inlineData_no_imagePart (ps : list Part) :
  Forall (fun q => inlineData q = None) ps ->
  find_imagePart ps ≫= inlineData = None.
Proof.
  intros H. unfold find_imagePart. rewrite find_none; [reflexivity|].
  eapply Forall_impl; [exact H|]. intros q ->. reflexivity.
Qed.

(** The last stretch of the handler when the response holds no image. *)
Lemma on_response_settled_no_image i response (s : page) :
  Forall (fun q => inlineData q = None) (response_parts response) ->
  on_response_settled i (JS.Resolved response) s
    = finally_block i
        (append_result
           (error_paragraph
              (JS.or_else
                 (Some (JS.or_else
                          (find_textPart (response_parts response) ≫= text)
                          defaultError))
                 unknown_error)) s).
Proof.
  intros H. unfold on_response_settled.
  rewrite (no_inlineData_no_imagePart _ H). reflexivity.
Qed.

Lemma defaultError_shown : JS.or_else (Some defaultError) unknown_error = defaultError.
Proof. reflexivity. Qed.

(* ===================================================================== *)
(** ** Properties of the single handlers *)
(* ===================================================================== *)

(** C1. When the parts of the response hold a part with inline data, the
    last stretch of the submission handler appends to the result area one
    image element, built from the first such part: its source is
    [data:<media type>;base64,<data>]; it appends no paragraph.  On a page
    the script has brought about, the result area then holds that image
    and no other image or paragraph. *)
Theorem success_appends_generated_image (s : page) (i : nat)
    (response : GenerateContentResponse)
    (before : list Part) (part : Part) (after : list Part) (blob : Blob) :
  response_parts response = before ++ part :: after ->
  Forall (fun q => inlineData q = None) before ->
  inlineData part = Some blob ->
  let s' := on_response_settled i (JS.Resolved response) s in
  generatedImageContainer s'
    = (fun c => c ++ [generated_img (data_uri blob)]) <$> generatedImageContainer s
  /\ DOM.tag_of (generated_img (data_uri blob)) = Some "img"
  /\ DOM.prop "src" (generated_img (data_uri blob))
       = "data:" +:+ JS.interpolate (mimeType blob) +:+ ";base64,"
                 +:+ JS.interpolate (data blob)
  /\ (reachable s -> pending s !! i = Some AwaitResponse ->
      forall c', generatedImageContainer s' = Some c' ->
        DOM.querySelectorAll c' = [generated_img (data_uri blob)]).
Proof.
  intros Hparts Hbefore Hblob s'.
  assert (Hs' : s' = finally_block i
                       (append_result (generated_img (data_uri blob)) s)).
  { subst s'. unfold on_response_settled, find_imagePart.
    rewrite Hparts, (find_first _ before part after).
    - cbn. rewrite Hblob. reflexivity.
    - eapply Forall_impl; [exact Hbefore|]. intros q ->. reflexivity.
    - rewrite Hblob. reflexivity. }
  assert (Hc : generatedImageContainer s'
    = (fun c => c ++ [generated_img (data_uri blob)]) <$> generatedImageContainer s).
  { rewrite Hs', finally_block_container. apply append_result_container. }
  split; [exact Hc|]. split; [reflexivity|]. split; [reflexivity|].
  intros Hr Hi c' Hc'. rewrite Hc in Hc'.
  destruct (generatedImageContainer s) as [c|] eqn:Hcs; [|discriminate].
  cbn in Hc'. injection Hc' as <-.
  pose proof (reachable_invariant s Hr) as Hinv.
  destruct (pending_single s i _ Hinv Hi) as (_ & Hp & _).
  rewrite DOMFacts.querySelectorAll_app.
  rewrite (proj2 (inv_result s Hinv c Hcs)) by (rewrite Hp; discriminate).
  reflexivity.
Qed.

Lemma success_appends_generated_image_witness :
  generatedImageContainer
    (on_response_settled 0 (JS.Resolved Sample.image_response) Sample.awaiting_page)
  = Some [Elem "div" [("id", "loader")] None [];
          generated_img "data:image/png;base64,QUJD"].
Proof.
  destruct (success_appends_generated_image Sample.awaiting_page 0
    Sample.image_response
    [ {| inlineData := None; text := Some "Here it is" |} ]
    {| inlineData := Some Sample.png; text := None |} [] Sample.png)
    as [H _].
  - reflexivity.
  - repeat constructor.
  - reflexivity.
  - rewrite H. vm_compute. reflexivity.
Defined.

(** C2, where it fails: a response whose only part is a text part with an
    empty text.  The first text part's text is the empty string, yet the
    paragraph appended does not hold the empty string: it holds the
    fallback message. *)
Lemma empty_text_part_shows_fallback :
  let ps := response_parts Sample.empty_text_response in
  let s' := on_response_settled 0 (JS.Resolved Sample.empty_text_response)
              Sample.awaiting_page in
  Forall (fun q => inlineData q = None) ps
  /\ (head ps ≫= text) = Some EmptyString
  /\ generatedImageContainer s'
       = Some [Elem "div" [("id", "loader")] None []; error_paragraph defaultError]
  /\ generatedImageContainer s'
       <> Some [Elem "div" [("id", "loader")] None []; error_paragraph EmptyString]
  /\ DOM.textContent (error_paragraph defaultError) <> EmptyString.
Proof.
  cbv zeta. split; [repeat constructor|]. split; [reflexivity|].
  assert (H : generatedImageContainer
    (on_response_settled 0 (JS.Resolved Sample.empty_text_response)
       Sample.awaiting_page)
    = Some [Elem "div" [("id", "loader")] None []; error_paragraph defaultError])
    by (vm_compute; reflexivity).
  split; [exact H|]. split.
  - rewrite H. vm_compute. discriminate.
  - vm_compute. discriminate.
Qed.

(** What the result area of a page the script has brought about holds
    once the handler that waited for the answer has appended an element
    and ended: the images and paragraphs of that element, and no other. *)
Lemma settled_result_alone (s : page) (i : nat) (el : node) (c' : list node) :
  reachable s -> pending s !! i = Some AwaitResponse ->
  generatedImageContainer (finally_block i (append_result el s)) = Some c' ->
  DOM.querySelectorAll c' = DOM.querySelectorAll [el].
Proof.
  intros Hr Hi Hc'.
  rewrite finally_block_container, append_result_container in Hc'.
  destruct (generatedImageContainer s) as [c|] eqn:Hc; [|discriminate].
  cbn in Hc'. injection Hc' as <-.
  pose proof (reachable_invariant s Hr) as Hinv.
  destruct (pending_single s i _ Hinv Hi) as (_ & Hp & _).
  rewrite DOMFacts.querySelectorAll_app.
  rewrite (proj2 (inv_result s Hinv c Hc)) by (rewrite Hp; discriminate).
  reflexivity.
Qed.

(** C2, amended.  When no part of the response holds inline data, the
    last stretch of the submission handler renders exactly one error
    paragraph in the result area: it appends one paragraph and nothing
    else, and on a page the script has brought about the result area then
    holds that paragraph and no other paragraph or image.  The text of
    the paragraph is the text of the first part whose text is not empty,
    and the fallback message when no part has a text that is not empty
    (so also when there is neither an image part nor a text part). *)
Theorem no_image_appends_error_paragraph (s : page) (i : nat)
    (response : GenerateContentResponse) :
  Forall (fun q => inlineData q = None) (response_parts response) ->
  let s' := on_response_settled i (JS.Resolved response) s in
  (forall before part after t,
      response_parts response = before ++ part :: after ->
      Forall (fun q => text q = None \/ text q = Some EmptyString) before ->
      text part = Some t -> t <> EmptyString ->
      generatedImageContainer s'
        = (fun c => c ++ [error_paragraph t]) <$> generatedImageContainer s
      /\ (reachable s -> pending s !! i = Some AwaitResponse ->
          forall c', generatedImageContainer s' = Some c' ->
            DOM.querySelectorAll c' = [error_paragraph t]))
  /\ (Forall (fun q => text q = None \/ text q = Some EmptyString)
             (response_parts response) ->
      generatedImageContainer s'
        = (fun c => c ++ [error_paragraph defaultError]) <$> generatedImageContainer s
      /\ (reachable s -> pending s !! i = Some AwaitResponse ->
          forall c', generatedImageContainer s' = Some c' ->
            DOM.querySelectorAll c' = [error_paragraph defaultError]))
  /\ (forall t, DOM.tag_of (error_paragraph t) = Some "p"
                /\ DOM.textContent (error_paragraph t) = t).
Proof.
  intros Hno s'. subst s'. rewrite (on_response_settled_no_image _ _ _ Hno).
  assert (Hmsg : forall msg,
    JS.or_else (Some (JS.or_else
                        (find_textPart (response_parts response) ≫= text)
                        defaultError)) unknown_error = msg ->
    generatedImageContainer
      (finally_block i
         (append_result
            (error_paragraph
               (JS.or_else
                  (Some (JS.or_else
                           (find_textPart (response_parts response) ≫= text)
                           defaultError)) unknown_error)) s))
      = (fun c => c ++ [error_paragraph msg]) <$> generatedImageContainer s
    /\ (reachable s -> pending s !! i = Some AwaitResponse ->
        forall c',
          generatedImageContainer
            (finally_block i
               (append_result
                  (error_paragraph
                     (JS.or_else
                        (Some (JS.or_else
                                 (find_textPart (response_parts response) ≫= text)
                                 defaultError)) unknown_error)) s)) = Some c' ->
          DOM.querySelectorAll c' = [error_paragraph msg])).
  { intros msg ->. split.
    - rewrite finally_block_container. apply append_result_container.
    - intros Hr Hi c' Hc'.
      rewrite (settled_result_alone s i _ c' Hr Hi Hc').
      apply (DOMFacts.querySelectorAll_error_paragraph msg). }
  split; [|split].
  - intros before part after t Hparts Hbefore Ht Hne. apply Hmsg.
    unfold find_textPart. rewrite Hparts, (find_first _ before part after).
    + destruct t as [|a t]; [congruence|]. cbn. rewrite Ht. reflexivity.
    + eapply Forall_impl; [exact Hbefore|]. intros q Hq. apply truthy_false, Hq.
    + rewrite Ht. apply truthy_true, Hne.
  - intros Hall. apply Hmsg. unfold find_textPart. rewrite find_none.
    + reflexivity.
    + eapply Forall_impl; [exact Hall|]. intros q Hq. apply truthy_false, Hq.
  - intros t. split; [reflexivity | apply DOMFacts.textContent_error_paragraph].
Qed.

Lemma no_image_appends_error_paragraph_witness :
  reachable Sample.awaiting_page
  /\ pending Sample.awaiting_page !! 0%nat = Some AwaitResponse
  /\ forall c',
       generatedImageContainer
         (on_response_settled 0 (JS.Resolved Sample.late_text_response)
            Sample.awaiting_page) = Some c' ->
       DOM.querySelectorAll c' = [error_paragraph "blocked by safety filters"].
Proof.
  assert (Hp : pending Sample.awaiting_page !! 0%nat = Some AwaitResponse)
    by (vm_compute; reflexivity).
  split; [exact SampleFacts.awaiting_reachable|]. split; [exact Hp|].
  destruct (no_image_appends_error_paragraph Sample.awaiting_page 0
              Sample.late_text_response) as [H _].
  - repeat constructor.
  - destruct (H [ {| inlineData := None; text := Some EmptyString |};
                  {| inlineData := None; text := None |} ]
                {| inlineData := None; text := Some "blocked by safety filters" |}
                [ {| inlineData := None; text := Some "ignored" |} ]
                "blocked by safety filters") as [_ Halone].
    + reflexivity.
    + constructor; [right; reflexivity|].
      constructor; [left; reflexivity|]. constructor.
    + reflexivity.
    + discriminate.
    + exact (Halone SampleFacts.awaiting_reachable Hp).
Defined.

(** C3. A click while no file is selected shows the no-file message (in
    the error-message element when the page has one, and on the console)
    and does nothing else: no call to the service is made, no handler is
    left suspended, the loader and the two controls keep their state and
    the result area is untouched. *)
Theorem click_without_file (s : page) :
  selectedFile s = None ->
  let s' := on_click s in
  errorMessage s' = (fun _ => no_file_message) <$> errorMessage s
  /\ console s' = console s ++ [no_file_message]
  /\ requests s' = requests s
  /\ pending s' = pending s
  /\ loader s' = loader s
  /\ submitBtn_disabled s' = submitBtn_disabled s
  /\ imageUpload_disabled s' = imageUpload_disabled s
  /\ generatedImageContainer s' = generatedImageContainer s
  /\ originalImagePreview s' = originalImagePreview s
  /\ selectedFile s' = None.
Proof.
  intros Hf. unfold on_click. rewrite Hf. cbn. repeat split. exact Hf.
Qed.

Lemma click_without_file_witness :
  selectedFile Sample.fresh_page = None
  /\ errorMessage (on_click Sample.fresh_page) = Some no_file_message
  /\ requests (on_click Sample.fresh_page) = [].
Proof.
  split; [reflexivity|].
  pose proof (click_without_file Sample.fresh_page eq_refl)
    as (H1 & _ & H3 & _).
  split; [exact H1 | exact H3].
Defined.

(** C10. A change event whose file list is empty (or missing) changes
    nothing: the page, with its selected file, preview, result area,
    error-message area and submit button, is as before. *)
Theorem empty_selection_changes_nothing (s : page) (url : string) :
  on_change (Some []) url s = s /\ on_change None url s = s.
Proof. split; reflexivity. Qed.



(** C9. A file selection on a page with a preview area creates an object
    URL for the file, shows one image with that source in the preview
    area and starts loading it; when that image's load event arrives, in
    whatever state the page then is, the object URL is revoked. *)
Theorem preview_url_revoked_on_load (s : page) (file : File) (rest : list File)
    (url : string) (old : list node) :
  originalImagePreview s = Some old ->
  let s1 := on_change (Some (file :: rest)) url s in
  originalImagePreview s1 = Some [preview_img url]
  /\ DOM.prop "src" (preview_img url) = url
  /\ object_urls s1 !! url = Some file
  /\ loading s1 = loading s ++ [preview_img url]
  /\ (forall s2, object_urls (on_load (preview_img url) s2) !! url = None)
  /\ (forall s2 i, loading s2 !! i = Some (preview_img url) ->
        exists s3, step (ImageLoad i) s2 = Some s3 /\ object_urls s3 !! url = None).
Proof.
  intros Hprev s1.
  assert (Hsrc : DOM.prop "src" (preview_img url) = url).
  { unfold DOM.prop, preview_img. cbn [find fst snd]. reflexivity. }
  assert (Hload : forall s2, object_urls (on_load (preview_img url) s2) !! url = None).
  { intros s2. unfold on_load, preview_img at 1. cbn [object_urls set_object_urls].
    rewrite Hsrc. apply lookup_delete_eq. }
  subst s1. unfold on_change. cbn [originalImagePreview set_selectedFile].
  rewrite Hprev.
  split; [page_cases; reflexivity|]. split; [exact Hsrc|].
  split; [page_cases; apply lookup_insert_eq|].
  split; [page_cases; reflexivity|]. split; [exact Hload|].
  intros s2 i Hi. eexists. cbn [step]. rewrite Hi. split; [reflexivity|].
  apply Hload.
Qed.

Lemma preview_url_revoked_on_load_witness :
  originalImagePreview Sample.fresh_page = Some []
  /\ object_urls Sample.selected_page !! "blob:1" = Some Sample.photo
  /\ object_urls (on_load (preview_img "blob:1") Sample.selected_page) !! "blob:1"
       = None.
Proof.
  split; [reflexivity|].
  pose proof (preview_url_revoked_on_load Sample.fresh_page Sample.photo []
                "blob:1" [] eq_refl) as (_ & _ & H3 & _ & H5 & _).
  split; [exact H3 | exact (H5 Sample.selected_page)].
Defined.

(* ===================================================================== *)
(** ** Properties of whole runs *)
(* ===================================================================== *)

Lemma on_click_pending (s : page) (file : File) :
  selectedFile s = Some file ->
  pending (on_click s) = pending s ++ [AwaitRead file].
Proof. intros Hf. unfold on_click. rewrite Hf. page_cases; reflexivity. Qed.

Lemma finally_block_pending i (s : page) :
  pending (finally_block i s) = delete i (pending s).
Proof. reflexivity. Qed.

Lemma append_result_pending el (s : page) :
  pending (append_result el s) = pending s.
Proof. page_cases; reflexivity. Qed.

(** A busy page takes neither a click nor a file selection. *)
Lemma busy_blocks (s : page) :
  busy s ->
  step Click s = None /\ forall files url, step (Change files url) s = None.
Proof.
  intros (Hs & Hu & _). cbn [step]. rewrite Hs, Hu. split; reflexivity.
Qed.

(** The step at which the suspended handler ends leaves the page idle. *)
Lemma settle_idle e (s s' : page) :
  invariant s -> pending s <> [] -> step e s = Some s' -> pending s' = [] ->
  idle s'.
Proof.
  intros Hinv Hne Hstep Hdone.
  destruct (inv_pending s Hinv) as [Hp | [ph [Hp Hb]]]; [contradiction|].
  destruct e as [files url | | i r | i r | i].
  - rewrite (proj2 (busy_blocks s Hb) files url) in Hstep. discriminate.
  - rewrite (proj1 (busy_blocks s Hb)) in Hstep. discriminate.
  - cbn [step] in Hstep.
    destruct (pending s !! i) as [[file|]|] eqn:Hi; try discriminate.
    injection Hstep as <-.
    destruct (pending_single s i _ Hinv Hi) as (-> & Hp' & _).
    unfold on_read_settled in *.
    destruct (fileToBase64 r); [destruct (selectedFile s)|];
      try apply finally_block_idle.
    cbn in Hdone. rewrite Hp' in Hdone. discriminate.
  - cbn [step] in Hstep.
    destruct (pending s !! i) as [[file|]|] eqn:Hi; try discriminate.
    injection Hstep as <-. unfold on_response_settled.
    destruct r as [response|error];
      [destruct (find_imagePart (response_parts response) ≫= inlineData)|];
      apply finally_block_idle.
  - cbn [step] in Hstep.
    destruct (loading s !! i) as [img|]; [|discriminate].
    injection Hstep as <-. exfalso. apply Hne. rewrite <- Hdone.
    unfold on_load. destruct img as [tag props [[]|] kids | chars]; reflexivity.
Qed.

(** A submission that runs alone runs to its end, whatever the read and
    the service answer. *)
Lemma run_cons e es (s s' : page) :
  step e s = Some s' -> run (e :: es) s = run es s'.
Proof. intros H. cbn [run]. rewrite H. reflexivity. Qed.

Lemma on_response_settled_ends sv (s : page) :
  pending s = [AwaitResponse] ->
  pending (on_response_settled 0 sv s) = [] /\ idle (on_response_settled 0 sv s).
Proof.
  intros Hp. unfold on_response_settled.
  destruct sv as [response|err];
    [destruct (find_imagePart (response_parts response) ≫= inlineData)|];
    (split; [|apply finally_block_idle]); unfold catch_block;
    rewrite finally_block_pending, append_result_pending, Hp; reflexivity.
Qed.

(** A submission that runs alone runs to its end, whatever the read and
    the service answer. *)
Lemma submit_completes (s : page) (file : File) rd sv :
  selectedFile s = Some file -> pending s = [] -> submitBtn_disabled s = false ->
  pending (submit rd sv s) = [] /\ idle (submit rd sv s)
  /\ exists es, run (Click :: es) s = Some (submit rd sv s).
Proof.
  intros Hf Hp Hen.
  assert (Hp1 : pending (on_click s) = [AwaitRead file]).
  { rewrite (on_click_pending s file Hf), Hp. reflexivity. }
  assert (Hf1 : selectedFile (on_click s) = Some file).
  { rewrite <- Hf. page_cases; congruence. }
  assert (Hclick : step Click s = Some (on_click s)).
  { cbn [step]. rewrite Hen. reflexivity. }
  assert (Hread : step (ReadSettled 0 rd) (on_click s)
                  = Some (on_read_settled 0 rd (on_click s))).
  { cbn [step]. rewrite Hp1. reflexivity. }
  unfold submit. rewrite Hp1. cbn [lookup list_lookup].
  destruct (fileToBase64 rd) as [base64Image|error] eqn:Hrd.
  - assert (Hp2 : pending (on_read_settled 0 rd (on_click s)) = [AwaitResponse]).
    { unfold on_read_settled. rewrite Hrd, Hf1.
      cbn [pending set_pending set_requests]. rewrite Hp1. reflexivity. }
    rewrite Hp2. cbn [lookup list_lookup].
    destruct (on_response_settled_ends sv _ Hp2) as [Hend Hidle].
    split; [exact Hend|]. split; [exact Hidle|].
    exists [ReadSettled 0 rd; ResponseSettled 0 sv].
    rewrite (run_cons _ _ _ _ Hclick), (run_cons _ _ _ _ Hread).
    cbn [run step]. rewrite Hp2. reflexivity.
  - assert (Hs2 : on_read_settled 0 rd (on_click s)
                  = finally_block 0 (catch_block error (on_click s))).
    { unfold on_read_settled. rewrite Hrd. reflexivity. }
    assert (Hp2 : pending (on_read_settled 0 rd (on_click s)) = []).
    { rewrite Hs2. unfold catch_block.
      rewrite finally_block_pending, append_result_pending, Hp1. reflexivity. }
    rewrite Hp2. cbn [lookup list_lookup].
    split; [exact Hp2|]. split; [rewrite Hs2; apply finally_block_idle|].
    exists [ReadSettled 0 rd].
    rewrite (run_cons _ _ _ _ Hclick), (run_cons _ _ _ _ Hread). reflexivity.
Qed.

(** C4. A click with a file selected leaves the page busy (submit button
    and file input disabled, loader shown) with the handler suspended;
    while a handler is suspended the page stays busy and takes neither a
    click nor a file selection; the step at which the handler ends leaves
    the page idle (both controls enabled, loader hidden); and a
    submission does end so, whatever the read gives (encoding failure or
    not) and whatever the service answers (an image, no image, an
    error). *)
Theorem submission_disables_controls_until_settled (s : page) (file : File) :
  reachable s -> selectedFile s = Some file -> submitBtn_disabled s = false ->
  let s1 := on_click s in
  step Click s = Some s1
  /\ pending s1 = [AwaitRead file]
  /\ busy s1
  /\ (forall es s', run es s1 = Some s' -> pending s' <> [] ->
        busy s' /\ step Click s' = None
        /\ forall files url, step (Change files url) s' = None)
  /\ (forall es s' e s'', run es s1 = Some s' -> pending s' <> [] ->
        step e s' = Some s'' -> pending s'' = [] -> idle s'')
  /\ (forall rd sv,
        pending (submit rd sv s) = [] /\ idle (submit rd sv s)
        /\ exists es, run (Click :: es) s = Some (submit rd sv s)).
Proof.
  intros Hr Hf Hen s1.
  pose proof (reachable_invariant s Hr) as Hinv.
  assert (Hp : pending s = []) by (apply enabled_not_pending; auto).
  assert (Hstep : step Click s = Some s1) by (cbn [step]; rewrite Hen; reflexivity).
  assert (Hr1 : reachable s1) by (eapply reachable_step; eassumption).
  split; [exact Hstep|].
  split; [subst s1; rewrite (on_click_pending s file Hf), Hp; reflexivity|].
  split; [apply (on_click_busy s file Hf)|].
  split; [|split].
  - intros es s' Hrun Hne.
    pose proof (reachable_invariant s' (run_reachable es s1 s' Hr1 Hrun)) as Hinv'.
    destruct (inv_pending s' Hinv') as [Hp' | [ph [_ Hb]]]; [contradiction|].
    split; [exact Hb | apply busy_blocks, Hb].
  - intros es s' e s'' Hrun Hne Hst Hdone.
    eapply settle_idle; [|exact Hne|exact Hst|exact Hdone].
    apply reachable_invariant. eapply run_reachable; eassumption.
  - intros rd sv. apply (submit_completes s file rd sv Hf Hp Hen).
Qed.

Lemma submission_disables_controls_until_settled_witness :
  reachable Sample.selected_page
  /\ busy (on_click Sample.selected_page)
  /\ idle Sample.done_page.
Proof.
  split; [exact SampleFacts.selected_reachable|].
  destruct (submission_disables_controls_until_settled Sample.selected_page
              Sample.photo SampleFacts.selected_reachable)
    as (_ & _ & Hbusy & _ & _ & Hend).
  - vm_compute. reflexivity.
  - vm_compute. reflexivity.
  - split; [exact Hbusy|].
    exact (proj1 (proj2 (Hend Sample.read_ok (JS.Resolved Sample.image_response)))).
Defined.

(** C5. On a page the script has brought about, a change event that
    carries a file makes its first file the selected file, shows in the
    preview area (when the page has one) a single image whose source is
    an object URL of that file, enables the submit button, leaves no
    image and no paragraph in the result area, empties the error-message
    area, and makes no call to the service. *)
Theorem selection_with_file (s : page) (file : File) (rest : list File)
    (url : string) :
  reachable s ->
  let s' := on_change (Some (file :: rest)) url s in
  selectedFile s' = Some file
  /\ (forall old, originalImagePreview s = Some old ->
        originalImagePreview s' = Some [preview_img url]
        /\ object_urls s' !! DOM.prop "src" (preview_img url) = Some file)
  /\ submitBtn_disabled s' = false
  /\ (forall c', generatedImageContainer s' = Some c' ->
        DOM.querySelectorAll c' = [])
  /\ errorMessage s' = (fun _ => EmptyString) <$> errorMessage s
  /\ requests s' = requests s
  /\ pending s' = pending s.
Proof.
  intros Hr s'. pose proof (reachable_invariant s Hr) as Hinv. subst s'.
  split; [page_cases; reflexivity|].
  split.
  { intros old Hold. unfold on_change. cbn [originalImagePreview set_selectedFile].
    rewrite Hold. split; [page_cases; reflexivity|].
    page_cases; apply lookup_insert_eq. }
  split; [page_cases; reflexivity|].
  split.
  { intros c' Hc'. unfold on_change in Hc'.
    cbn [displayError generatedImageContainer set_console set_errorMessage] in Hc'.
    eapply remove_existing_result_clears; [|exact Hc'].
    intros c0 Hc0. apply (inv_result _ Hinv).
    rewrite <- Hc0. cbn. destruct (originalImagePreview s); reflexivity. }
  split; [page_cases; reflexivity|].
  split; page_cases; reflexivity.
Qed.

Lemma selection_with_file_witness :
  reachable Sample.refused_page
  /\ DOM.querySelectorAll
       (default [] (generatedImageContainer Sample.refused_page))
     = [error_paragraph "blocked by safety filters"]
  /\ (forall c', generatedImageContainer
                   (on_change (Some [Sample.photo]) "blob:2" Sample.refused_page)
                 = Some c' -> DOM.querySelectorAll c' = []).
Proof.
  split; [exact SampleFacts.refused_reachable|].
  split; [vm_compute; reflexivity|].
  exact (proj1 (proj2 (proj2 (proj2
    (selection_with_file Sample.refused_page Sample.photo [] "blob:2"
       SampleFacts.refused_reachable))))).
Defined.

(** C6. On every page reached by any sequence of events (file
    selections, clicks, the settling of the read and of the request,
    image loads), the images and paragraphs under the result area are
    none, or the one generated image, or the one error paragraph: never
    two, never one of each. *)
Theorem result_area_exclusive (s : page) :
  reachable s ->
  forall c, generatedImageContainer s = Some c ->
    DOM.querySelectorAll c = []
    \/ (exists src, DOM.querySelectorAll c = [generated_img src])
    \/ (exists msg, DOM.querySelectorAll c = [error_paragraph msg]).
Proof.
  intros Hr c Hc. exact (proj1 (inv_result s (reachable_invariant s Hr) c Hc)).
Qed.

Lemma result_area_exclusive_witness :
  reachable Sample.done_page
  /\ (DOM.querySelectorAll
        [Elem "div" [("id", "loader")] None [];
         generated_img "data:image/png;base64,QUJD"] = []
      \/ (exists src, DOM.querySelectorAll
            [Elem "div" [("id", "loader")] None [];
             generated_img "data:image/png;base64,QUJD"] = [generated_img src])
      \/ (exists msg, DOM.querySelectorAll
            [Elem "div" [("id", "loader")] None [];
             generated_img "data:image/png;base64,QUJD"] = [error_paragraph msg])).
Proof.
  split; [exact SampleFacts.done_reachable|].
  exact (result_area_exclusive Sample.done_page SampleFacts.done_reachable _
           SampleFacts.done_result).
Defined.

(* ===================================================================== *)
(** ** Further properties of the encoder *)
(* ===================================================================== *)

Lemma split_sep_head sep (s : string) :
  JS.split sep (String sep s) = EmptyString :: JS.split sep s.
Proof. cbn [JS.split]. rewrite Ascii.eqb_refl. reflexivity. Qed.

(** No piece of a split holds the separator. *)
Lemma split_pieces_clean sep (s : string) :
  Forall (fun piece => JS.occurs sep piece = false) (JS.split sep s).
Proof.
  induction s as [|a s IH]; cbn [JS.split].
  - repeat constructor.
  - destruct (Ascii.eqb a sep) eqn:E.
    + constructor; [reflexivity | exact IH].
    + destruct (JS.split sep s) as [|piece pieces].
      * repeat constructor. cbn [JS.occurs]. rewrite E. reflexivity.
      * inversion IH as [|? ? Hp Hps]; subst.
        constructor; [|exact Hps].
        cbn [JS.occurs]. rewrite E, Hp. reflexivity.
Qed.

(** X1. When the text the platform read holds no comma, [fileToBase64]
    resolves, and with [undefined]: there is no second piece. *)
Theorem fileToBase64_without_comma (result : string) :
  JS.occurs "," result = false ->
  fileToBase64 (ReadLoad result) = JS.Resolved None.
Proof.
  intros H. cbn [fileToBase64]. rewrite (split_absent "," result H). reflexivity.
Qed.

Lemma fileToBase64_without_comma_witness :
  JS.occurs "," "data:" = false
  /\ fileToBase64 (ReadLoad "data:") = JS.Resolved None.
Proof.
  split; [reflexivity|]. exact (fileToBase64_without_comma "data:" eq_refl).
Defined.

(** X2. Whatever text the platform read, a string [fileToBase64] resolves
    with holds no comma. *)
Theorem fileToBase64_value_without_comma (r : read_result) (value : string) :
  fileToBase64 r = JS.Resolved (Some value) -> JS.occurs "," value = false.
Proof.
  destruct r as [result|ev]; cbn [fileToBase64]; [|discriminate].
  intros [= H]. pose proof (split_pieces_clean "," result) as Hall.
  rewrite Forall_forall in Hall. apply Hall.
  eapply list_elem_of_lookup_2. exact H.
Qed.

Lemma fileToBase64_value_without_comma_witness :
  fileToBase64 (ReadLoad "data:a,b;base64,TWFu") = JS.Resolved (Some "b;base64")
  /\ JS.occurs "," "b;base64" = false.
Proof.
  split; [reflexivity|].
  exact (fileToBase64_value_without_comma
           (ReadLoad "data:a,b;base64,TWFu") "b;base64" eq_refl).
Defined.

(** X3. [fileToBase64] resolves with what stands between the first and
    the second comma: when the text read holds a second comma, what
    follows it is dropped. *)
Theorem fileToBase64_stops_at_second_comma (head piece rest : string) :
  JS.occurs "," head = false -> JS.occurs "," piece = false ->
  fileToBase64 (ReadLoad (head +:+ String "," (piece +:+ String "," rest)))
    = JS.Resolved (Some piece).
Proof.
  intros Hh Hp. cbn [fileToBase64].
  rewrite (split_prefix "," head) by exact Hh.
  rewrite split_sep_head.
  rewrite (split_prefix "," piece) by exact Hp.
  rewrite split_sep_head.
  cbn [lookup list_lookup]. rewrite DOMFacts.append_empty. reflexivity.
Qed.

Lemma fileToBase64_stops_at_second_comma_witness :
  fileToBase64 (ReadLoad "data:a,b;base64,TWFu") = JS.Resolved (Some "b;base64").
Proof.
  exact (fileToBase64_stops_at_second_comma "data:a" "b;base64" "TWFu"
           eq_refl eq_refl).
Defined.

(* ===================================================================== *)
(** ** Further properties of the removal block *)
(* ===================================================================== *)

Lemma querySelector_selected x below rest :
  DOM.selected_under x = x :: below ->
  head (DOM.selected_under x ++ rest) = Some x.
Proof. intros ->. reflexivity. Qed.

(** What a removal below an unselected node takes away: one selected
    element with all that is selected below it, the first in document
    order. *)
Lemma remove_first_under_takes (n : node) :
  DOM.selected n = false ->
  forall n', DOM.remove_first_under n = Some n' ->
    exists x, DOM.selected x = true
      /\ DOM.selected_under n = DOM.selected_under x ++ DOM.selected_under n'.
Proof.
  induction n as [chars | tag props h kids IH] using DOMFacts.node_kids_ind;
    intros Hsel n'; [discriminate|].
  rewrite DOMFacts.remove_first_under_Elem.
  destruct (DOM.remove_first kids) as [kids'|] eqn:Hrm; [|discriminate].
  cbn [fmap option_fmap option_map]. intros [= <-].
  rewrite !DOMFacts.selected_under_Elem_unselected by exact Hsel.
  clear Hsel. revert kids' Hrm.
  induction IH as [|k rest Hk _ IHrest]; intros kids' Hrm; [discriminate|].
  cbn [DOM.remove_first] in Hrm. rewrite DOMFacts.querySelectorAll_cons.
  destruct (DOM.selected k) eqn:Hsel.
  - injection Hrm as <-. exists k. split; [exact Hsel | reflexivity].
  - destruct (DOM.remove_first_under k) as [k'|] eqn:Hk'.
    + injection Hrm as <-. destruct (Hk eq_refl k' eq_refl) as (x & Hx & Heq).
      exists x. split; [exact Hx|].
      rewrite DOMFacts.querySelectorAll_cons, Heq, app_assoc. reflexivity.
    + destruct (DOM.remove_first rest) as [rest'|] eqn:Hrest; [|discriminate].
      cbn [fmap option_fmap option_map] in Hrm. injection Hrm as <-.
      destruct (IHrest rest' eq_refl) as (x & Hx & Heq).
      exists x. split; [exact Hx|].
      pose proof (DOMFacts.shrinks_under_all k Hsel) as Hnone.
      rewrite Hk' in Hnone.
      rewrite DOMFacts.querySelectorAll_cons, Hnone, Heq. reflexivity.
Qed.

Lemma remove_first_takes (l l' : list node) :
  DOM.remove_first l = Some l' ->
  exists x, DOM.selected x = true
    /\ DOM.querySelectorAll l = DOM.selected_under x ++ DOM.querySelectorAll l'.
Proof.
  intros Hrm.
  destruct (remove_first_under_takes (Elem "div" [] None l) eq_refl
              (Elem "div" [] None l')) as (x & Hx & Heq).
  - rewrite DOMFacts.remove_first_under_Elem, Hrm. reflexivity.
  - exists x. split; [exact Hx|].
    rewrite !DOMFacts.selected_under_Elem_unselected in Heq by reflexivity.
    exact Heq.
Qed.

(** A child under which nothing is selected survives a removal. *)
Lemma remove_first_keeps (l l' : list node) (k : node) :
  DOM.remove_first l = Some l' -> k ∈ l -> DOM.selected_under k = [] -> k ∈ l'.
Proof.
  revert l'. induction l as [|k0 rest IH]; intros l' Hrm Hin Hclean;
    [discriminate|].
  cbn [DOM.remove_first] in Hrm.
  assert (Hne : DOM.selected k0 = true \/
                (exists k0', DOM.remove_first_under k0 = Some k0' /\
                             DOM.selected k0 = false) -> k <> k0).
  { intros Hcase ->. destruct Hcase as [Hs | (k0' & Hk0 & Hs)].
    - destruct (DOMFacts.selected_under_selected k0 Hs) as [below Hb].
      rewrite Hb in Hclean. discriminate.
    - pose proof (DOMFacts.shrinks_under_all k0 Hs) as Hsh.
      rewrite Hk0, Hclean in Hsh. cbn [length] in Hsh. lia. }
  apply elem_of_cons in Hin.
  destruct (DOM.selected k0) eqn:Hsel.
  - injection Hrm as <-. destruct Hin as [->|Hin]; [|exact Hin].
    exfalso. apply Hne; auto.
  - destruct (DOM.remove_first_under k0) as [k0'|] eqn:Hk0.
    + injection Hrm as <-. destruct Hin as [->|Hin].
      * exfalso. apply Hne; eauto.
      * apply elem_of_cons. right. exact Hin.
    + destruct (DOM.remove_first rest) as [rest'|] eqn:Hrest; [|discriminate].
      cbn [fmap option_fmap option_map] in Hrm. injection Hrm as <-.
      apply elem_of_cons. destruct Hin as [->|Hin]; [left; reflexivity|].
      right. apply IH; auto.
Qed.

(** X4. The removal block of the two handlers detaches the element
    [querySelector('img, p')] returns, with what is below it, and no other
    image or paragraph: the images and paragraphs under the result area
    before are those of the detached element followed by those left.
    When the query returns null the page is left as it is. *)
Theorem removal_takes_first_match (s : page) (c : list node) :
  generatedImageContainer s = Some c ->
  match DOM.querySelector c with
  | None => remove_existing_result s = s
  | Some x =>
      exists c', generatedImageContainer (remove_existing_result s) = Some c'
        /\ DOM.querySelectorAll c = DOM.selected_under x ++ DOM.querySelectorAll c'
  end.
Proof.
  intros Hc. unfold remove_existing_result. rewrite Hc.
  destruct (DOM.remove_first c) as [c'|] eqn:Hrm.
  - destruct (remove_first_takes c c' Hrm) as (x & Hx & Heq).
    destruct (DOMFacts.selected_under_selected x Hx) as [below Hb].
    unfold DOM.querySelector. rewrite Heq.
    rewrite (querySelector_selected x below _ Hb).
    exists c'. split; [reflexivity | reflexivity].
  - rewrite (proj1 (DOMFacts.remove_first_None c) Hrm). reflexivity.
Qed.

Lemma removal_takes_first_match_witness :
  exists c', generatedImageContainer (remove_existing_result Sample.done_page)
             = Some c'
    /\ DOM.querySelectorAll
         [Elem "div" [("id", "loader")] None [];
          generated_img "data:image/png;base64,QUJD"]
       = DOM.selected_under (generated_img "data:image/png;base64,QUJD")
           ++ DOM.querySelectorAll c'.
Proof.
  exact (removal_takes_first_match Sample.done_page _ SampleFacts.done_result).
Defined.

(** X5. The removal block keeps the loader and its like: a child of the
    result area that is no image or paragraph, and holds none, is still a
    child afterwards. *)
Theorem removal_keeps_other_children (s : page) (c : list node) (k : node) :
  generatedImageContainer s = Some c -> k ∈ c -> DOM.selected_under k = [] ->
  exists c', generatedImageContainer (remove_existing_result s) = Some c'
    /\ k ∈ c'.
Proof.
  intros Hc Hin Hclean. unfold remove_existing_result. rewrite Hc.
  destruct (DOM.remove_first c) as [c'|] eqn:Hrm.
  - exists c'. split; [reflexivity|]. eapply remove_first_keeps; eassumption.
  - exists c. split; [exact Hc | exact Hin].
Qed.

Lemma removal_keeps_other_children_witness :
  exists c', generatedImageContainer (remove_existing_result Sample.done_page)
             = Some c'
    /\ Elem "div" [("id", "loader")] None [] ∈ c'.
Proof.
  apply (removal_keeps_other_children Sample.done_page _ _ SampleFacts.done_result).
  - apply elem_of_cons. left. reflexivity.
  - reflexivity.
Defined.

(* ===================================================================== *)
(** ** Further properties of the submission *)
(* ===================================================================== *)

Lemma or_else_falsy (v : option string) (b : string) :
  v = None \/ v = Some EmptyString -> JS.or_else v b = b.
Proof. intros [-> | ->]; reflexivity. Qed.


Lemma on_change_requests files url (s : page) :
  requests (on_change files url s) = requests s.
Proof. page_cases; reflexivity. Qed.

Lemma on_click_requests (s : page) : requests (on_click s) = requests s.
Proof. page_cases; reflexivity. Qed.

Lemma on_click_selectedFile (s : page) : selectedFile (on_click s) = selectedFile s.
Proof. page_cases; congruence. Qed.

Lemma on_read_settled_selectedFile i r (s : page) :
  selectedFile (on_read_settled i r s) = selectedFile s.
Proof. page_cases; congruence. Qed.

Lemma on_response_settled_selectedFile i r (s : page) :
  selectedFile (on_response_settled i r s) = selectedFile s.
Proof. page_cases; congruence. Qed.

Lemma on_response_settled_requests i r (s : page) :
  requests (on_response_settled i r s) = requests s.
Proof. page_cases; reflexivity. Qed.

Lemma on_load_fields img (s : page) :
  selectedFile (on_load img s) = selectedFile s
  /\ pending (on_load img s) = pending s
  /\ requests (on_load img s) = requests s.
Proof. page_cases; auto. Qed.

Lemma submit_selectedFile rd sv (s : page) :
  selectedFile (submit rd sv s) = selectedFile s.
Proof.
  unfold submit.
  repeat case_match;
    rewrite ?on_response_settled_selectedFile, ?on_read_settled_selectedFile,
      ?on_click_selectedFile; reflexivity.
Qed.

(** The end of a handler through its [catch] block. *)
Lemma caught_container i error (s : page) :
  generatedImageContainer (finally_block i (catch_block error s))
    = (fun c => c ++ [error_paragraph (JS.or_else (JS.message error) unknown_error)])
        <$> generatedImageContainer s.
Proof.
  unfold catch_block. rewrite finally_block_container.
  apply append_result_container.
Qed.

(** X6. When the read of the file fails, the handler makes no call to
    the service: it appends one paragraph to the result area and ends,
    leaving the page idle.  The paragraph holds the failure's message
    when it has a non-empty one and the unknown-error text otherwise,
    as for the event a [FileReader] reports, which has no message. *)
Theorem read_failure_makes_no_request (s : page) (i : nat) (ev : JS.thrown) :
  let s' := on_read_settled i (ReadError ev) s in
  requests s' = requests s
  /\ pending s' = delete i (pending s)
  /\ idle s'
  /\ (JS.message ev = None \/ JS.message ev = Some EmptyString ->
      generatedImageContainer s'
        = (fun c => c ++ [error_paragraph unknown_error])
            <$> generatedImageContainer s)
  /\ (forall m, JS.message ev = Some m -> m <> EmptyString ->
      generatedImageContainer s'
        = (fun c => c ++ [error_paragraph m]) <$> generatedImageContainer s).
Proof.
  intros s'. subst s'.
  change (on_read_settled i (ReadError ev) s)
    with (finally_block i (catch_block ev s)).
  split; [page_cases; reflexivity|].
  split; [unfold catch_block;
          rewrite finally_block_pending, append_result_pending; reflexivity|].
  split; [apply finally_block_idle|].
  rewrite caught_container. split.
  - intros H. rewrite (or_else_falsy _ _ H). reflexivity.
  - intros m Hm Hne. rewrite Hm, (or_else_truthy m _ Hne). reflexivity.
Qed.

(** X7. When the call to the service fails, the handler appends one
    paragraph to the result area and ends, leaving the page idle; the
    paragraph holds the error's message when it has a non-empty one and
    the unknown-error text otherwise.  No further call is made. *)
Theorem service_failure_shows_message (s : page) (i : nat) (error : JS.thrown) :
  let s' := on_response_settled i (JS.Rejected error) s in
  requests s' = requests s
  /\ pending s' = delete i (pending s)
  /\ idle s'
  /\ (JS.message error = None \/ JS.message error = Some EmptyString ->
      generatedImageContainer s'
        = (fun c => c ++ [error_paragraph unknown_error])
            <$> generatedImageContainer s)
  /\ (forall m, JS.message error = Some m -> m <> EmptyString ->
      generatedImageContainer s'
        = (fun c => c ++ [error_paragraph m]) <$> generatedImageContainer s).
Proof.
  intros s'. subst s'.
  change (on_response_settled i (JS.Rejected error) s)
    with (finally_block i (catch_block error s)).
  split; [page_cases; reflexivity|].
  split; [unfold catch_block;
          rewrite finally_block_pending, append_result_pending; reflexivity|].
  split; [apply finally_block_idle|].
  rewrite caught_container. split.
  - intros H. rewrite (or_else_falsy _ _ H). reflexivity.
  - intros m Hm Hne. rewrite Hm, (or_else_truthy m _ Hne). reflexivity.
Qed.

(** X8. A response without candidates, or whose first candidate has no
    content, or whose content has no parts or an empty list of parts, is
    answered like a response without image and text: the paragraph with
    the fallback message is appended to the result area. *)
Theorem response_without_parts_shows_fallback (s : page) (i : nat)
    (response : GenerateContentResponse) :
  candidates response = None \/ candidates response = Some []
  \/ (exists c cs, candidates response = Some (c :: cs)
        /\ (content c = None
            \/ exists ct, content c = Some ct
                 /\ (parts ct = None \/ parts ct = Some []))) ->
  generatedImageContainer (on_response_settled i (JS.Resolved response) s)
    = (fun c => c ++ [error_paragraph defaultError]) <$> generatedImageContainer s.
Proof.
  intros H.
  assert (Hps : response_parts response = []).
  { unfold response_parts.
    destruct H as [-> | [-> | (c & cs & -> & [-> | (ct & -> & [-> | ->])])]];
      reflexivity. }
  rewrite on_response_settled_no_image by (rewrite Hps; constructor).
  rewrite Hps, finally_block_container, append_result_container. reflexivity.
Qed.

Lemma response_without_parts_shows_fallback_witness :
  generatedImageContainer
    (on_response_settled 0 (JS.Resolved {| candidates := Some [] |})
       Sample.awaiting_page)
  = (fun c => c ++ [error_paragraph defaultError])
      <$> generatedImageContainer Sample.awaiting_page.
Proof.
  apply response_without_parts_shows_fallback. right; left. reflexivity.
Defined.

(* ===================================================================== *)
(** ** Further invariants of the page *)
(* ===================================================================== *)





(** X9. On every page the script brings about, at most one submission
    is under way; while one is, the page is busy, a file is selected and
    the result area shows no image and no paragraph. *)
Theorem one_submission_at_a_time (s : page) :
  reachable s ->
  length (pending s) <= 1
  /\ (pending s <> [] ->
      busy s
      /\ (exists file, selectedFile s = Some file)
      /\ forall c, generatedImageContainer s = Some c ->
           DOM.querySelectorAll c = []).
Proof.
  intros Hr. pose proof (reachable_invariant s Hr) as Hinv. split.
  - destruct (inv_pending s Hinv) as [-> | (ph & -> & _)]; cbn [length]; lia.
  - intros Hne. split; [|split].
    + destruct (inv_pending s Hinv) as [Hp | (ph & _ & Hb)];
        [contradiction | exact Hb].
    + pose proof (inv_file s Hinv Hne) as Hf.
      destruct (selectedFile s) as [file|]; [eauto | contradiction].
    + intros c Hc. exact (proj2 (inv_result s Hinv c Hc) Hne).
Qed.

Lemma one_submission_at_a_time_witness :
  reachable Sample.awaiting_page /\ busy Sample.awaiting_page.
Proof.
  split; [exact SampleFacts.awaiting_reachable|].
  apply (one_submission_at_a_time Sample.awaiting_page
           SampleFacts.awaiting_reachable).
  vm_compute. discriminate.
Defined.



Lemma fixed_request_make base64Image mime :
  fixed_request (make_request base64Image mime).
Proof. split; [reflexivity|]. split; [reflexivity|]. eauto. Qed.

Lemma step_requests e (s s' : page) :
  step e s = Some s' ->
  requests s' = requests s
  \/ exists base64Image mime,
       requests s' = requests s ++ [make_request base64Image mime].
Proof.
  destruct e as [files url | | i r | i r | i]; cbn [step]; intros Hstep.
  - destruct (imageUpload_disabled s); [discriminate|].
    destruct (object_urls s !! url); [discriminate|].
    injection Hstep as <-. left. apply on_change_requests.
  - destruct (submitBtn_disabled s); [discriminate|].
    injection Hstep as <-. left. apply on_click_requests.
  - destruct (pending s !! i) as [[f|]|]; try discriminate.
    injection Hstep as <-. unfold on_read_settled.
    destruct (fileToBase64 r) as [d|error]; [destruct (selectedFile s) as [f'|]|].
    + right. exists d, (type f'). reflexivity.
    + left. page_cases; reflexivity.
    + left. page_cases; reflexivity.
  - destruct (pending s !! i) as [[f|]|]; try discriminate.
    injection Hstep as <-. left. apply on_response_settled_requests.
  - destruct (loading s !! i) as [img|]; [|discriminate].
    injection Hstep as <-. left.
    apply (on_load_fields img (set_loading (delete i (loading s)) s)).
Qed.

(** X11. Every call the page ever makes to the service names the same
    model, asks for an image and a text, and holds one inline image
    followed by the fixed prompt. *)
Theorem every_request_is_fixed (s : page) :
  reachable s -> Forall fixed_request (requests s).
Proof.
  induction 1 as [s Hi | s e s' Hr IH Hstep].
  - rewrite (init_requests s Hi). constructor.
  - destruct (step_requests e s s' Hstep) as [-> | (d & m & ->)]; [exact IH|].
    apply Forall_app. split; [exact IH|].
    constructor; [apply fixed_request_make | constructor].
Qed.

Lemma every_request_is_fixed_witness :
  Forall fixed_request (requests Sample.done_page).
Proof.
  exact (every_request_is_fixed Sample.done_page SampleFacts.done_reachable).
Defined.

Lemma step_keeps_selection e (s s' : page) :
  step e s = Some s' -> is_Some (selectedFile s) -> is_Some (selectedFile s').
Proof.
  destruct e as [files url | | i r | i r | i]; cbn [step]; intros Hstep Hsel.
  - destruct (imageUpload_disabled s); [discriminate|].
    destruct (object_urls s !! url); [discriminate|].
    injection Hstep as <-.
    destruct files as [[|file rest]|]; try exact Hsel.
    exists file. page_cases; reflexivity.
  - destruct (submitBtn_disabled s); [discriminate|].
    injection Hstep as <-. rewrite on_click_selectedFile. exact Hsel.
  - destruct (pending s !! i) as [[f|]|]; try discriminate.
    injection Hstep as <-. rewrite on_read_settled_selectedFile. exact Hsel.
  - destruct (pending s !! i) as [[f|]|]; try discriminate.
    injection Hstep as <-. rewrite on_response_settled_selectedFile. exact Hsel.
  - destruct (loading s !! i) as [img|]; [|discriminate].
    injection Hstep as <-.
    rewrite (proj1 (on_load_fields img (set_loading (delete i (loading s)) s))).
    exact Hsel.
Qed.

(** X12. Once a file is selected, a file stays selected through whatever
    happens next: no event brings the variable back to null. *)
Theorem selection_is_never_lost (es : list event) (s s' : page) :
  run es s = Some s' -> is_Some (selectedFile s) -> is_Some (selectedFile s').
Proof.
  revert s. induction es as [|e es IH]; intros s; cbn [run].
  - intros [= <-]. auto.
  - destruct (step e s) as [s1|] eqn:Hstep; [|discriminate].
    intros Hrun Hsel. apply (IH s1 Hrun). eapply step_keeps_selection; eassumption.
Qed.

Lemma selection_is_never_lost_witness :
  is_Some (selectedFile Sample.done_page).
Proof.
  apply (selection_is_never_lost _ _ _ SampleFacts.done_run).
  exists Sample.photo. vm_compute. reflexivity.
Defined.

(** X13. After a submission has ended, whatever its outcome, the same
    file can be submitted again at once: the click is taken and starts a
    read of that file. *)
Theorem submission_can_be_repeated (s : page) (file : File)
    (rd : read_result) (sv : JS.settled GenerateContentResponse) :
  reachable s -> selectedFile s = Some file -> submitBtn_disabled s = false ->
  let s' := submit rd sv s in
  reachable s'
  /\ step Click s' = Some (on_click s')
  /\ pending (on_click s') = [AwaitRead file].
Proof.
  intros Hr Hf Hen s'. subst s'.
  assert (Hp : pending s = []).
  { apply enabled_not_pending; [apply reachable_invariant, Hr | auto]. }
  destruct (submit_completes s file rd sv Hf Hp Hen)
    as (Hdone & (Hs & _ & _) & es & Hrun).
  split; [exact (run_reachable _ _ _ Hr Hrun)|].
  split; [cbn [step]; rewrite Hs; reflexivity|].
  rewrite (on_click_pending _ file), Hdone; [reflexivity|].
  rewrite submit_selectedFile. exact Hf.
Qed.

Lemma submission_can_be_repeated_witness :
  pending (on_click Sample.refused_page) = [AwaitRead Sample.photo].
Proof.
  refine (proj2 (proj2 (submission_can_be_repeated Sample.selected_page
    Sample.photo Sample.read_ok (JS.Resolved Sample.text_response)
    SampleFacts.selected_reachable _ _))).
  - vm_compute. reflexivity.
  - vm_compute. reflexivity.
Defined.

Lemma on_click_quiet (s : page) (file : File) :
  selectedFile s = Some file ->
  errorMessage (on_click s) = (fun _ => EmptyString) <$> errorMessage s
  /\ console (on_click s) = console s ++ [EmptyString]
  /\ originalImagePreview (on_click s) = originalImagePreview s.
Proof. intros Hf. unfold on_click. rewrite Hf. page_cases; auto. Qed.

(** The two later stretches of the handler write neither to the
    error-message area nor to the console nor to the preview area. *)
Lemma settling_is_quiet i (s : page) :
  (forall r, errorMessage (on_read_settled i r s) = errorMessage s
             /\ console (on_read_settled i r s) = console s
             /\ originalImagePreview (on_read_settled i r s)
                  = originalImagePreview s)
  /\ (forall r, errorMessage (on_response_settled i r s) = errorMessage s
             /\ console (on_response_settled i r s) = console s
             /\ originalImagePreview (on_response_settled i r s)
                  = originalImagePreview s).
Proof. split; intros r; page_cases; auto. Qed.

(** X14. A submission with a file selected empties the error-message
    area and writes nothing else there: whatever the outcome, the area is
    empty at the end, the console has one more (empty) line, and the
    preview area is as before.  Failures are told in the result area
    only. *)
Theorem submission_clears_error_message (s : page) (file : File)
    (rd : read_result) (sv : JS.settled GenerateContentResponse) :
  selectedFile s = Some file ->
  let s' := submit rd sv s in
  errorMessage s' = (fun _ => EmptyString) <$> errorMessage s
  /\ console s' = console s ++ [EmptyString]
  /\ originalImagePreview s' = originalImagePreview s.
Proof.
  intros Hf s'. subst s'.
  destruct (on_click_quiet s file Hf) as (He & Hc & Hp).
  unfold submit.
  repeat case_match;
    repeat match goal with
    | |- context [on_response_settled ?i ?r ?t] =>
        destruct (proj2 (settling_is_quiet i t) r) as (-> & -> & ->)
    | |- context [on_read_settled ?i ?r ?t] =>
        destruct (proj1 (settling_is_quiet i t) r) as (-> & -> & ->)
    end; auto.
Qed.

Lemma submission_clears_error_message_witness :
  errorMessage Sample.refused_page = Some EmptyString.
Proof.
  exact (proj1 (submission_clears_error_message Sample.selected_page Sample.photo
    Sample.read_ok (JS.Resolved Sample.text_response) eq_refl)).
Defined.

(* ===================================================================== *)
(** ** Object URLs *)
(* ===================================================================== *)

Lemma prop_src_preview url : DOM.prop "src" (preview_img url) = url.
Proof. reflexivity. Qed.



Lemma on_change_urls file rest url (s : page) :
  match originalImagePreview s with
  | Some _ =>
      loading (on_change (Some (file :: rest)) url s)
        = loading s ++ [preview_img url]
      /\ object_urls (on_change (Some (file :: rest)) url s)
        = <[url := file]> (object_urls s)
  | None =>
      loading (on_change (Some (file :: rest)) url s) = loading s
      /\ object_urls (on_change (Some (file :: rest)) url s) = object_urls s
  end.
Proof.
  unfold on_change. cbn [originalImagePreview set_selectedFile].
  destruct (originalImagePreview s); page_cases; auto.
Qed.







(* ===================================================================== *)
(** ** Missing elements *)
(* ===================================================================== *)

Lemma same_presence {A B : Type} (a : option A) (b : option B) :
  (fun _ => tt) <$> a = (fun _ => tt) <$> b -> (is_Some a <-> is_Some b).
Proof.
  destruct a, b; cbn; intros H; try discriminate;
    split; intros [x Hx]; try discriminate; eauto.
Qed.

Lemma step_presence e (s s' : page) :
  step e s = Some s' ->
  (fun _ => tt) <$> originalImagePreview s' = (fun _ => tt) <$> originalImagePreview s
  /\ (fun _ => tt) <$> generatedImageContainer s'
       = (fun _ => tt) <$> generatedImageContainer s
  /\ (fun _ => tt) <$> loader s' = (fun _ => tt) <$> loader s
  /\ (fun _ => tt) <$> errorMessage s' = (fun _ => tt) <$> errorMessage s.
Proof.
  destruct e as [files url | | i r | i r | i]; cbn [step]; intros Hstep.
  - destruct (imageUpload_disabled s); [discriminate|].
    destruct (object_urls s !! url); [discriminate|].
    injection Hstep as <-. repeat split; presence.
  - destruct (submitBtn_disabled s); [discriminate|].
    injection Hstep as <-. repeat split; presence.
  - destruct (pending s !! i) as [[f|]|]; try discriminate.
    injection Hstep as <-. repeat split; presence.
  - destruct (pending s !! i) as [[f|]|]; try discriminate.
    injection Hstep as <-. repeat split; presence.
  - destruct (loading s !! i) as [img|]; [|discriminate].
    injection Hstep as <-. repeat split; presence.
Qed.

(** X16. The handlers neither create nor drop any of the four optional
    elements: after any sequence of events the preview area, the result
    area, the loader and the error-message area are there exactly when
    they were there at the start.  On a page without result area the
    outcome of a submission is shown nowhere. *)
Theorem elements_neither_created_nor_dropped (es : list event) (s s' : page) :
  run es s = Some s' ->
  (is_Some (originalImagePreview s') <-> is_Some (originalImagePreview s))
  /\ (is_Some (generatedImageContainer s') <-> is_Some (generatedImageContainer s))
  /\ (is_Some (loader s') <-> is_Some (loader s))
  /\ (is_Some (errorMessage s') <-> is_Some (errorMessage s)).
Proof.
  intros Hrun.
  cut ((fun _ => tt) <$> originalImagePreview s'
         = (fun _ => tt) <$> originalImagePreview s
       /\ (fun _ => tt) <$> generatedImageContainer s'
            = (fun _ => tt) <$> generatedImageContainer s
       /\ (fun _ => tt) <$> loader s' = (fun _ => tt) <$> loader s
       /\ (fun _ => tt) <$> errorMessage s' = (fun _ => tt) <$> errorMessage s).
  { intros (H1 & H2 & H3 & H4). repeat split; apply same_presence; auto. }
  revert s Hrun. induction es as [|e es IH]; intros s; cbn [run].
  - intros [= <-]. auto.
  - destruct (step e s) as [s1|] eqn:Hstep; [|discriminate].
    intros Hrun. destruct (IH s1 Hrun) as (H1 & H2 & H3 & H4).
    destruct (step_presence e s s1 Hstep) as (G1 & G2 & G3 & G4).
    rewrite H1, H2, H3, H4. auto.
Qed.

Lemma elements_neither_created_nor_dropped_witness :
  is_Some (generatedImageContainer Sample.done_page)
  <-> is_Some (generatedImageContainer Sample.selected_page).
Proof.
  exact (proj1 (proj2 (elements_neither_created_nor_dropped _ _ _
                         SampleFacts.done_run))).
Defined.

(** X17. On a page without preview area a file selection creates no
    object URL and starts no image load; the file is selected and the
    submit button enabled all the same. *)
Theorem selection_without_preview_area (s : page) (file : File)
    (rest : list File) (url : string) :
  originalImagePreview s = None ->
  let s' := on_change (Some (file :: rest)) url s in
  object_urls s' = object_urls s
  /\ loading s' = loading s
  /\ originalImagePreview s' = None
  /\ selectedFile s' = Some file
  /\ submitBtn_disabled s' = false.
Proof.
  intros Hnone s'. subst s'.
  pose proof (on_change_urls file rest url s) as H. rewrite Hnone in H.
  destruct H as [Hl Hu].
  split; [exact Hu|]. split; [exact Hl|].
  unfold on_change. cbn [originalImagePreview set_selectedFile].
  rewrite Hnone. repeat split; page_cases; auto.
Qed.

Lemma selection_without_preview_area_witness :
  object_urls
    (on_change (Some [Sample.photo]) "blob:1"
       (set_originalImagePreview None Sample.fresh_page)) = ∅.
Proof.
  exact (proj1 (selection_without_preview_area
                  (set_originalImagePreview None Sample.fresh_page)
                  Sample.photo [] "blob:1" eq_refl)).
Defined.
